(** * secrets.py: credential resolution over the OS keyring

    A shallow embedding of [src/secrets.py].  The module resolves a
    (username, password) pair from the process environment, else from the
    OS keyring, else (on request) from an interactive prompt whose answers
    are persisted, and offers the matching store and delete operations.

    Python [str] values are modelled by [string], one [ascii] per code
    point (so code points below 256); an [Optional[str]] is an
    [option string].  Every function that touches the environment, the
    keyring or the terminal is a computation in the monad [M] below, which
    threads a [World] and may raise a Python exception.  The keyring
    library and the terminal are not part of the module: the keyring
    backend is a parameter ([Keyring]), the terminal a list of lines still
    to be typed. *)

From stdpp Require Import base option list gmap strings fin_maps.
From Stdlib Require Import Ascii String Bool Arith Lia.

Open Scope string_scope.
Open Scope list_scope.

(** ** Python values *)

Module Py.

(** Truthiness of an [Optional[str]]: [None] and [""] are falsy. *)
Definition truthy (v : option string) : bool :=
  match v with
  | Some (String _ _) => true
  | _ => false
  end.

(** [str.isspace] on one character, for code points below 256. *)
Definition isspace (c : ascii) : bool :=
  let n := nat_of_ascii c in
  (((9 <=? n) && (n <=? 13)) || ((28 <=? n) && (n <=? 32))
   || (n =? 133) || (n =? 160))%nat.

Fixpoint lstrip (s : string) : string :=
  match s with
  | EmptyString => EmptyString
  | String c s' => if isspace c then lstrip s' else s
  end.

Fixpoint rstrip (s : string) : string :=
  match s with
  | EmptyString => EmptyString
  | String c s' =>
      match rstrip s' with
      | EmptyString => if isspace c then EmptyString else String c EmptyString
      | r => String c r
      end
  end.

(** [s.strip()] *)
Definition strip (s : string) : string := rstrip (lstrip s).

(** [s.startswith(pre)] *)
Fixpoint startswith (s pre : string) {struct pre} : bool :=
  match pre with
  | EmptyString => true
  | String a pre' =>
      match s with
      | EmptyString => false
      | String b s' => Ascii.eqb a b && startswith s' pre'
      end
  end.

(** [sub in s] *)
Fixpoint contains (sub s : string) : bool :=
  startswith s sub
  || match s with
     | EmptyString => false
     | String _ s' => contains sub s'
     end.

(** The double quote and the newline, as one-character strings. *)
Definition dquote : string := String (ascii_of_nat 34) EmptyString.
Definition newline : string := String (ascii_of_nat 10) EmptyString.

End Py.

(** ** Module constants *)

Definition ENV_USER : string := "PI_USER".
Definition ENV_PASS : string := "PI_PASS".

(** [os.getenv(name, default)] on a snapshot of [os.environ]. *)
Definition getenv_default (environ : gmap string string) (name default : string) : string :=
  match environ !! name with
  | Some v => v
  | None => default
  end.

(** [SERVICE_NAME] and [DEFAULT_ACCOUNT] are read once, when the module is
    imported, from the environment of that moment. *)
Definition import_SERVICE_NAME (environ : gmap string string) : string :=
  getenv_default environ "KEYRING_SERVICE" "pi-weblogger".

Definition import_DEFAULT_ACCOUNT (environ : gmap string string) : string :=
  getenv_default environ "KEYRING_ACCOUNT" "prod".

(** ** Key naming *)

Definition _key_names (account : string) : string * string :=
  let user_key := account +:+ ":username" in
  let pass_key := account +:+ ":password" in
  (user_key, pass_key).

(** ** Exceptions and effects *)

(** The exceptions the module raises or lets through.
    [PasswordDeleteError] is [keyring.errors.PasswordDeleteError], what a
    backend raises when the key to delete is not there; [StoreFailure]
    stands for any other keyring exception; [EOFError] is what a prompt
    raises on a closed terminal; [ModuleNotFoundError] is what an [import]
    raises when the library is not installed. *)
Inductive exn : Type :=
| MissingSecretError (msg : string)
| PasswordDeleteError (msg : string)
| StoreFailure (detail : string)
| EOFError
| ModuleNotFoundError (msg : string).

Definition is_PasswordDeleteError (e : exn) : bool :=
  match e with
  | PasswordDeleteError _ => true
  | _ => false
  end.

Inductive outcome (A : Type) : Type :=
| Ok (a : A)
| Raise (e : exn).
Arguments Ok {A} a.
Arguments Raise {A} e.

(** What the module does to its collaborators, in the order it does it. *)
Inductive event : Type :=
| EvGet (service key : string)
| EvSet (service key value : string)
| EvDelete (service key : string)
| EvInput (prompt : string)
| EvGetpass (prompt : string).

Definition is_prompt (ev : event) : bool :=
  match ev with
  | EvInput _ | EvGetpass _ => true
  | _ => false
  end.

(** Modelled from the spec: the keyring library ([import keyring]) is an
    external collaborator, known here by its contract only.  A backend is
    keyed by (service, key); [get] answers a string or nothing, or raises
    (no backend, keychain locked); [set] succeeds or raises; [delete]
    succeeds, raises [PasswordDeleteError] (key not found) or raises
    something else.  A read leaves the backend as it is. *)
Class Keyring (B : Type) : Type := {
  get_password : string → string → B → outcome (option string);
  set_password : string → string → string → B → outcome unit * B;
  delete_password : string → string → B → outcome unit * B
}.

(** Modelled from the spec: what a backend that honours the contract
    guarantees.  A write that succeeded is read back, a delete that
    succeeded or found nothing leaves nothing, and no operation on one
    (service, key) changes what another one reads. *)
Class KeyringLaws (B : Type) `{Keyring B} : Prop := {
  get_set_eq : ∀ s k v b,
    (set_password s k v b).1 = Ok tt →
    get_password s k (set_password s k v b).2 = Ok (Some v);
  get_set_ne : ∀ s k v s' k' b,
    (s', k') ≠ (s, k) →
    get_password s' k' (set_password s k v b).2 = get_password s' k' b;
  get_delete_eq : ∀ s k b,
    (∀ e, (delete_password s k b).1 = Raise e → is_PasswordDeleteError e = true) →
    get_password s k (delete_password s k b).2 = Ok None;
  get_delete_ne : ∀ s k s' k' b,
    (s', k') ≠ (s, k) →
    get_password s' k' (delete_password s k b).2 = get_password s' k' b
}.

(** The world a call runs in: [os.environ], the keyring, the lines still to
    be typed at the terminal, and the calls made so far. *)
Record World (B : Type) : Type := mkWorld {
  environ : gmap string string;
  keyring : B;
  stdin : list string;
  trace : list event
}.
Arguments mkWorld {B} _ _ _ _.
Arguments environ {B} _.
Arguments keyring {B} _.
Arguments stdin {B} _.
Arguments trace {B} _.

Definition log {B} (ev : event) (w : World B) : World B :=
  mkWorld (environ w) (keyring w) (stdin w) (trace w ++ [ev]).

Definition set_environ {B} (e : gmap string string) (w : World B) : World B :=
  mkWorld e (keyring w) (stdin w) (trace w).

Definition set_keyring {B} (b : B) (w : World B) : World B :=
  mkWorld (environ w) b (stdin w) (trace w).

Definition set_stdin {B} (l : list string) (w : World B) : World B :=
  mkWorld (environ w) (keyring w) l (trace w).

(** State and exceptions. *)
Definition M (B A : Type) : Type := World B → outcome A * World B.

Definition ret {B A} (a : A) : M B A := fun w => (Ok a, w).

Definition raise {B A} (e : exn) : M B A := fun w => (Raise e, w).

Definition bind {B A C} (m : M B A) (k : A → M B C) : M B C :=
  fun w =>
    match m w with
    | (Ok a, w') => k a w'
    | (Raise e, w') => (Raise e, w')
    end.

(** [try: m  except <handled>: pass] *)
Definition try_except_pass {B} (m : M B unit) (handled : exn → bool) : M B unit :=
  fun w =>
    match m w with
    | (Ok tt, w') => (Ok tt, w')
    | (Raise e, w') => if handled e then (Ok tt, w') else (Raise e, w')
    end.

#[export] Instance M_ret {B} : MRet (M B) := @ret B.
#[export] Instance M_bind {B} : MBind (M B) := λ A C k m, bind m k.

Section Effects.
Context {B : Type} `{Keyring B}.

(** [os.getenv(name)] *)
Definition os_getenv (name : string) : M B (option string) :=
  fun w => (Ok (environ w !! name), w).

(** [keyring.get_password(service, key)] *)
Definition keyring_get_password (service key : string) : M B (option string) :=
  fun w => (get_password service key (keyring w), log (EvGet service key) w).

(** [keyring.set_password(service, key, value)] *)
Definition keyring_set_password (service key value : string) : M B unit :=
  fun w =>
    let r := set_password service key value (keyring w) in
    (r.1, log (EvSet service key value) (set_keyring r.2 w)).

(** [keyring.delete_password(service, key)] *)
Definition keyring_delete_password (service key : string) : M B unit :=
  fun w =>
    let r := delete_password service key (keyring w) in
    (r.1, log (EvDelete service key) (set_keyring r.2 w)).

(** [input(prompt)]: the next line typed, without its newline. *)
Definition input (prompt : string) : M B string :=
  fun w =>
    match stdin w with
    | [] => (Raise EOFError, log (EvInput prompt) w)
    | line :: rest => (Ok line, log (EvInput prompt) (set_stdin rest w))
    end.

(** [getpass.getpass(prompt)]: the same, without echo. *)
Definition getpass (prompt : string) : M B string :=
  fun w =>
    match stdin w with
    | [] => (Raise EOFError, log (EvGetpass prompt) w)
    | line :: rest => (Ok line, log (EvGetpass prompt) (set_stdin rest w))
    end.

(** [v or alt], where [alt] is only evaluated when [v] is falsy. *)
Definition or_else (v : option string) (alt : M B string) : M B string :=
  match v with
  | Some (String c s) => ret (String c s)
  | _ => alt
  end.

End Effects.

(** [(u, p)] when [u and p] holds, as in [if u and p: return u, p]. *)
Definition truthy_pair (u p : option string) : option (string * string) :=
  match u, p with
  | Some u', Some p' =>
      if Py.truthy u && Py.truthy p then Some (u', p') else None
  | _, _ => None
  end.

(** ** The module's functions *)

Section Secrets.
Context {B : Type} `{Keyring B}.
Variable SERVICE_NAME : string.

Definition _env_credentials : M B (option (string * string)) :=
  u ← os_getenv ENV_USER;
  p ← os_getenv ENV_PASS;
  ret (truthy_pair u p).

Definition set_basic_auth (account : string) (username password : option string)
  : M B unit :=
  let '(user_key, pass_key) := _key_names account in
  username ← or_else username (line ← input "PI Username: "; ret (Py.strip line));
  password ← or_else password (getpass "PI Password: ");
  keyring_set_password SERVICE_NAME user_key username ;;
  keyring_set_password SERVICE_NAME pass_key password.

Definition missing_message (account : string) : string :=
  "Missing credentials." +:+ Py.newline
  +:+ "- Set env vars " +:+ ENV_USER +:+ "/" +:+ ENV_PASS +:+ ", OR" +:+ Py.newline
  +:+ "- Run: python -c " +:+ Py.dquote
  +:+ "import secrets; secrets.set_basic_auth('" +:+ account +:+ "')"
  +:+ Py.dquote +:+ Py.newline
  +:+ "(service='" +:+ SERVICE_NAME +:+ "', account='" +:+ account +:+ "')".

Definition get_basic_auth (account : string) (interactive_bootstrap : bool)
  : M B (string * string) :=
  env ← _env_credentials;
  match env with
  | Some c => ret c
  | None =>
      let '(user_key, pass_key) := _key_names account in
      username ← keyring_get_password SERVICE_NAME user_key;
      password ← keyring_get_password SERVICE_NAME pass_key;
      match truthy_pair username password with
      | Some c => ret c
      | None =>
          bootstrapped ←
            (if interactive_bootstrap then
               set_basic_auth account None None ;;
               username ← keyring_get_password SERVICE_NAME user_key;
               password ← keyring_get_password SERVICE_NAME pass_key;
               ret (truthy_pair username password)
             else ret None);
          match bootstrapped with
          | Some c => ret c
          | None => raise (MissingSecretError (missing_message account))
          end
      end
  end.

Definition requests_auth (account : string) : M B (string * string) :=
  get_basic_auth account false.

Definition delete_basic_auth (account : string) : M B unit :=
  let '(user_key, pass_key) := _key_names account in
  try_except_pass (keyring_delete_password SERVICE_NAME user_key) is_PasswordDeleteError ;;
  try_except_pass (keyring_delete_password SERVICE_NAME pass_key) is_PasswordDeleteError.

End Secrets.

(** ** Reference backends *)

(** An in-memory keyring: a dictionary from (service, key) to the secret.
    While [locked] it refuses every write and delete, and still answers
    reads.  Deleting a key that is not there raises [PasswordDeleteError],
    as keyring backends do. *)
Record MemKeyring : Type := mkMem {
  entries : gmap (string * string) string;
  locked : bool
}.

Definition mem_get (service key : string) (b : MemKeyring)
  : outcome (option string) :=
  Ok (entries b !! (service, key)).

Definition mem_set (service key value : string) (b : MemKeyring) : outcome unit * MemKeyring :=
  if locked b then (Raise (StoreFailure "keyring is locked"), b)
  else (Ok tt, mkMem (<[(service, key) := value]> (entries b)) (locked b)).

Definition mem_delete (service key : string) (b : MemKeyring) : outcome unit * MemKeyring :=
  if locked b then (Raise (StoreFailure "keyring is locked"), b)
  else match entries b !! (service, key) with
       | Some _ => (Ok tt, mkMem (delete (service, key) (entries b)) (locked b))
       | None => (Raise (PasswordDeleteError "Password not found"), b)
       end.

#[export] Instance MemKeyring_backend : Keyring MemKeyring := {
  get_password := mem_get;
  set_password := mem_set;
  delete_password := mem_delete
}.

Definition empty_keyring : MemKeyring := mkMem ∅ false.

(** A backend whose writes report success and store nothing. *)
Record LossyKeyring : Type := mkLossy { kept : gmap (string * string) string }.

#[export] Instance LossyKeyring_backend : Keyring LossyKeyring := {
  get_password := λ s k b, Ok (kept b !! (s, k));
  set_password := λ s k v b, (Ok tt, b);
  delete_password := λ s k b, (Ok tt, mkLossy (delete (s, k) (kept b)))
}.

(** No backend at all, as on a machine without a keyring service: every
    call raises. *)
Inductive NoKeyring : Type := no_keyring.

Definition no_backend : exn := StoreFailure "No recommended backend was available".

#[export] Instance NoKeyring_backend : Keyring NoKeyring := {
  get_password := λ s k b, Raise no_backend;
  set_password := λ s k v b, (Raise no_backend, b);
  delete_password := λ s k b, (Raise no_backend, b)
}.

(** A world in which nothing has been done yet. *)
Definition fresh_world {B} (e : gmap string string) (b : B) (typed : list string) : World B :=
  mkWorld e b typed [].

(** ** Sample worlds *)

(** Both override variables set. *)
Definition ci_environ : gmap string string :=
  <["PI_USER" := "ci-user"]> (<["PI_PASS" := "ci-token"]> ∅).

(** Only PI_USER set. *)
Definition half_environ : gmap string string :=
  <["PI_USER" := "ci-user"]> ∅.

(** A keyring that holds a pair for [prod] and one for [test]. *)
Definition alice_keyring : MemKeyring :=
  mkMem (<[("pi-weblogger", "prod:username") := "alice"]>
           (<[("pi-weblogger", "prod:password") := "s3cr3t"]>
              (<[("pi-weblogger", "test:username") := "tester"]>
                 (<[("pi-weblogger", "test:password") := "t0ps3cr3t"]> ∅))))
        false.

(** A keyring that holds only the password key of [prod]. *)
Definition half_keyring : MemKeyring :=
  mkMem (<[("pi-weblogger", "prod:password") := "s3cr3t"]> ∅) false.

(** ** Vocabulary of the statements *)

(** The override the environment offers: both variables, when both are
    non-empty. *)
Definition env_pair (e : gmap string string) : option (string * string) :=
  truthy_pair (e !! ENV_USER) (e !! ENV_PASS).

(** An environment with neither override variable. *)
Definition without_override (e : gmap string string) : gmap string string :=
  delete ENV_USER (delete ENV_PASS e).

Section Vocabulary.
Context {B : Type} `{Keyring B}.
Variable SERVICE_NAME : string.

(** What reading both keys of an account comes to: the complete pair the
    keyring holds, or none, or the exception of the first read that
    failed. *)
Definition stored_pair (account : string) (b : B)
  : outcome (option (string * string)) :=
  match get_password SERVICE_NAME (_key_names account).1 b with
  | Raise e => Raise e
  | Ok u =>
      match get_password SERVICE_NAME (_key_names account).2 b with
      | Raise e => Raise e
      | Ok p => Ok (truthy_pair u p)
      end
  end.

(** What [get_basic_auth] makes of it when no bootstrap follows. *)
Definition found_or_missing (account : string)
    (s : outcome (option (string * string))) : outcome (string * string) :=
  match s with
  | Ok (Some c) => Ok c
  | Ok None => Raise (MissingSecretError (missing_message SERVICE_NAME account))
  | Raise e => Raise e
  end.

(** The reads made until one fails, as they show in the trace. *)
Definition attempted_reads (account : string) (b : B) : list event :=
  match get_password SERVICE_NAME (_key_names account).1 b with
  | Raise _ => [EvGet SERVICE_NAME (_key_names account).1]
  | Ok _ =>
      [EvGet SERVICE_NAME (_key_names account).1;
       EvGet SERVICE_NAME (_key_names account).2]
  end.

(** The two reads of an account's keys, as they show in the trace. *)
Definition reads (account : string) : list event :=
  [EvGet SERVICE_NAME (_key_names account).1;
   EvGet SERVICE_NAME (_key_names account).2].

(** The two writes that end [set_basic_auth], once both values are known. *)
Definition persist (account username password : string) : M B unit :=
  keyring_set_password SERVICE_NAME (_key_names account).1 username ;;
  keyring_set_password SERVICE_NAME (_key_names account).2 password.

(** The two deletes of an account's keys, as they show in the trace. *)
Definition deletes (account : string) : list event :=
  [EvDelete SERVICE_NAME (_key_names account).1;
   EvDelete SERVICE_NAME (_key_names account).2].

End Vocabulary.

(** What the claim on prompting allows a call to end in: a pair, or
    [MissingSecretError]. *)
Definition returns_pair_or_missing (r : outcome (string * string)) : Prop :=
  (∃ c, r = Ok c) ∨ (∃ msg, r = Raise (MissingSecretError msg)).

(** A keyring call failed with something other than "not found". *)
Definition store_failure (r : outcome unit) (e : exn) : Prop :=
  r = Raise e ∧ is_PasswordDeleteError e = false.

(** The command the error message tells the operator to run. *)
Definition bootstrap_invocation (account : string) : string :=
  "python -c " +:+ Py.dquote
  +:+ "import secrets; secrets.set_basic_auth('" +:+ account +:+ "')"
  +:+ Py.dquote.

(** ** The convenience wrappers *)

(** A [requests.Session], as far as this module touches it: its [auth]
    attribute, [None] on a new session. *)
Record Session : Type := mkSession { auth : option (string * string) }.

Definition new_session : Session := mkSession None.

Definition set_auth (s : Session) (c : string * string) : Session :=
  mkSession (Some c).

Section Wrappers.
Context {B : Type} `{Keyring B}.
Variable SERVICE_NAME : string.

(** Whether the [requests] library is installed where the module runs. *)
Variable requests_installed : bool.

(** [import requests] *)
Definition import_requests : M B unit :=
  if requests_installed then ret tt
  else raise (ModuleNotFoundError "No module named 'requests'").

Definition requests_session (account : string) : M B Session :=
  import_requests ;;
  let s := new_session in
  c ← get_basic_auth SERVICE_NAME account false;
  ret (set_auth s c).

End Wrappers.

(** ** A backend with limited room *)

(** An in-memory keyring that takes at most [room] more keys.  Writing a
    key it already holds always works; writing a new key fails once the
    room is used up. *)
Record QuotaKeyring : Type := mkQuota {
  held : gmap (string * string) string;
  room : nat
}.

Definition quota_set (service key value : string) (b : QuotaKeyring)
  : outcome unit * QuotaKeyring :=
  match held b !! (service, key), room b with
  | Some _, _ => (Ok tt, mkQuota (<[(service, key) := value]> (held b)) (room b))
  | None, S n => (Ok tt, mkQuota (<[(service, key) := value]> (held b)) n)
  | None, O => (Raise (StoreFailure "keyring is full"), b)
  end.

Definition quota_delete (service key : string) (b : QuotaKeyring)
  : outcome unit * QuotaKeyring :=
  match held b !! (service, key) with
  | Some _ => (Ok tt, mkQuota (delete (service, key) (held b)) (S (room b)))
  | None => (Raise (PasswordDeleteError "Password not found"), b)
  end.

#[export] Instance QuotaKeyring_backend : Keyring QuotaKeyring := {
  get_password := λ s k b, Ok (held b !! (s, k));
  set_password := quota_set;
  delete_password := quota_delete
}.

(** ** More vocabulary *)

(** How many answers [set_basic_auth] has to ask for. *)
Definition prompts_needed (username password : option string) : nat :=
  (if Py.truthy username then 0 else 1) + (if Py.truthy password then 0 else 1).

(** ** More sample worlds *)

(** [alice_keyring], locked. *)
Definition locked_keyring : MemKeyring := mkMem (entries alice_keyring) true.

(** A keyring that holds a pair for [prod] under two services. *)
Definition two_service_keyring : MemKeyring :=
  mkMem (<[("pi-weblogger", "prod:username") := "alice"]>
           (<[("pi-weblogger", "prod:password") := "s3cr3t"]>
              (<[("staging", "prod:username") := "stan"]>
                 (<[("staging", "prod:password") := "st4g1ng"]> ∅))))
        false.

(** An empty keyring with room for one key. *)
Definition tight_keyring : QuotaKeyring := mkQuota ∅ 1.

(** * Properties *)

(** ** Strings *)

Lemma append_nil (t : string) : "" +:+ t = t.
Proof. reflexivity. Qed.

Lemma append_cons (c : ascii) (s t : string) : String c s +:+ t = String c (s +:+ t).
Proof. reflexivity. Qed.

Lemma append_length (s t : string) :
  String.length (s +:+ t) = (String.length s + String.length t)%nat.
Proof.
  induction s as [|c s IH]; [reflexivity |].
  rewrite append_cons. cbn [String.length]. now rewrite IH.
Qed.

Lemma append_assoc (s t r : string) : (s +:+ t) +:+ r = s +:+ (t +:+ r).
Proof.
  induction s as [|c s IH]; [reflexivity |].
  rewrite !append_cons. now rewrite IH.
Qed.

(** Two concatenations with suffixes of one length agree only when both
    parts agree. *)
Lemma append_inj_suffix (a b s t : string) :
  String.length s = String.length t →
  a +:+ s = b +:+ t →
  a = b ∧ s = t.
Proof.
  revert b. induction a as [|c a IH]; intros [|d b] Hlen Heq;
    rewrite ?append_nil, ?append_cons in Heq.
  - split; [reflexivity | exact Heq].
  - exfalso. apply (f_equal String.length) in Heq.
    cbn [String.length] in Heq. rewrite append_length in Heq. lia.
  - exfalso. apply (f_equal String.length) in Heq.
    cbn [String.length] in Heq. rewrite append_length in Heq. lia.
  - injection Heq as -> Heq.
    destruct (IH b Hlen Heq) as [-> ->]. split; reflexivity.
Qed.

Lemma startswith_append (sub post : string) : Py.startswith (sub +:+ post) sub = true.
Proof.
  induction sub as [|c sub IH]; [reflexivity |].
  rewrite append_cons. cbn [Py.startswith].
  now rewrite Ascii.eqb_refl, IH.
Qed.

Lemma startswith_inv (sub s : string) :
  Py.startswith s sub = true → ∃ post, s = sub +:+ post.
Proof.
  revert s. induction sub as [|c sub IH]; intros s Hp; cbn [Py.startswith] in Hp.
  - exists s. reflexivity.
  - destruct s as [|d s]; [discriminate |].
    apply andb_true_iff in Hp as [Hc Hp].
    apply Ascii.eqb_eq in Hc as ->.
    destruct (IH s Hp) as [post ->]. exists post. reflexivity.
Qed.

(** [Py.contains] finds exactly the substrings. *)
Lemma contains_intro (pre sub post : string) :
  Py.contains sub (pre +:+ (sub +:+ post)) = true.
Proof.
  induction pre as [|c pre IH].
  - rewrite append_nil.
    destruct (sub +:+ post) eqn:E; cbn [Py.contains]; rewrite <- E;
      rewrite startswith_append; reflexivity.
  - rewrite append_cons. cbn [Py.contains]. rewrite IH. apply orb_true_r.
Qed.

Lemma contains_inv (sub s : string) :
  Py.contains sub s = true → ∃ pre post, s = pre +:+ (sub +:+ post).
Proof.
  induction s as [|c s IH]; cbn [Py.contains]; intros Hc.
  - rewrite orb_false_r in Hc. destruct (startswith_inv _ _ Hc) as [post ->].
    exists "", post. reflexivity.
  - apply orb_true_iff in Hc as [Hp | Hc].
    + destruct (startswith_inv _ _ Hp) as [post ->]. exists "", post. reflexivity.
    + destruct (IH Hc) as (pre & post & ->). exists (String c pre), post. reflexivity.
Qed.

(** ** Key naming *)

Lemma key_names_eq (account : string) :
  _key_names account = (account +:+ ":username", account +:+ ":password").
Proof. reflexivity. Qed.

Lemma user_key_inj (a b : string) : (_key_names a).1 = (_key_names b).1 → a = b.
Proof.
  rewrite !key_names_eq. cbn [fst]. intros Heq.
  apply append_inj_suffix in Heq; [tauto | reflexivity].
Qed.

Lemma pass_key_inj (a b : string) : (_key_names a).2 = (_key_names b).2 → a = b.
Proof.
  rewrite !key_names_eq. cbn [snd]. intros Heq.
  apply append_inj_suffix in Heq; [tauto | reflexivity].
Qed.

Lemma user_key_ne_pass_key (a b : string) : (_key_names a).1 ≠ (_key_names b).2.
Proof.
  rewrite !key_names_eq. cbn [fst snd]. intros Heq.
  apply append_inj_suffix in Heq; [| reflexivity].
  destruct Heq as [_ Heq]. discriminate Heq.
Qed.

(** C5. Key derivation never collides: two distinct accounts share no key
    string (neither user key with user key, nor user key with password key,
    nor password key with password key), and the username key and the
    password key of one account are distinct strings.  [_key_names] reads
    nothing but its argument. *)
Theorem key_names_no_collision (a b : string) (Hab : a ≠ b) :
  let ka := _key_names a in
  let kb := _key_names b in
  (ka.1 ≠ kb.1 ∧ ka.1 ≠ kb.2 ∧ ka.2 ≠ kb.1 ∧ ka.2 ≠ kb.2)
  ∧ ka.1 ≠ ka.2 ∧ kb.1 ≠ kb.2.
Proof.
  cbv zeta. repeat split.
  - intros Heq. apply Hab, user_key_inj, Heq.
  - apply user_key_ne_pass_key.
  - intros Heq. symmetry in Heq. exact (user_key_ne_pass_key _ _ Heq).
  - intros Heq. apply Hab, pass_key_inj, Heq.
  - apply user_key_ne_pass_key.
  - apply user_key_ne_pass_key.
Qed.

Lemma key_names_no_collision_witness :
  "prod" ≠ "test"
  ∧ (("prod:username" ≠ "test:username" ∧ "prod:username" ≠ "test:password"
      ∧ "prod:password" ≠ "test:username" ∧ "prod:password" ≠ "test:password")
     ∧ "prod:username" ≠ "prod:password" ∧ "test:username" ≠ "test:password").
Proof.
  assert (Hne : "prod" ≠ "test") by discriminate.
  split; [exact Hne |].
  exact (key_names_no_collision "prod" "test" Hne).
Defined.

(** ** Running the monad *)

Ltac run :=
  unfold get_basic_auth, requests_auth, set_basic_auth, delete_basic_auth,
    _env_credentials, or_else, os_getenv, keyring_get_password,
    keyring_set_password, keyring_delete_password, try_except_pass,
    input, getpass, mbind, M_bind, bind, ret, raise.

Ltac wsimpl :=
  cbn [fst snd environ keyring stdin trace log set_keyring set_stdin
       set_environ _key_names].

Ltac wsimpl_in H :=
  cbn [fst snd environ keyring stdin trace log set_keyring set_stdin
       set_environ _key_names] in H.

Lemma truthy_pair_Some (u p : string) :
  u ≠ "" → p ≠ "" → truthy_pair (Some u) (Some p) = Some (u, p).
Proof. destruct u, p; intros; [congruence .. | reflexivity]. Qed.

Lemma truthy_pair_inv (u p : option string) (c : string * string) :
  truthy_pair u p = Some c →
  u = Some c.1 ∧ p = Some c.2 ∧ c.1 ≠ "" ∧ c.2 ≠ "".
Proof.
  destruct u as [[|a u]|], p as [[|b p]|]; cbn; intros E; try discriminate.
  injection E as <-. cbn. repeat split; discriminate.
Qed.

Lemma truthy_pair_falsy_l (u p : option string) :
  Py.truthy u = false → truthy_pair u p = None.
Proof. destruct u as [[|a u]|], p as [[|b p]|]; cbn; congruence. Qed.

Lemma truthy_pair_falsy_r (u p : option string) :
  Py.truthy p = false → truthy_pair u p = None.
Proof. destruct u as [[|a u]|], p as [[|b p]|]; cbn; congruence. Qed.

Lemma service_key_ne (s k k' : string) : k' ≠ k → (s, k') ≠ (s, k).
Proof. intros Hne E. apply Hne. now injection E. Qed.

Lemma env_pair_without_override (e : gmap string string) :
  env_pair (without_override e) = None.
Proof.
  unfold env_pair, without_override. now rewrite lookup_delete_eq.
Qed.

Lemma log_twice {B} (e1 e2 : event) (w : World B) :
  log e2 (log e1 w) = mkWorld (environ w) (keyring w) (stdin w) (trace w ++ [e1; e2]).
Proof. unfold log. cbn. now rewrite <- app_assoc. Qed.

Lemma set_environ_same {B} (w : World B) : set_environ (environ w) w = w.
Proof. now destruct w. Qed.

Section Resolution.
Context {B : Type} `{Keyring B}.
Variable SERVICE_NAME : string.

Implicit Types (w : World B) (account : string).

Lemma env_credentials_run w :
  _env_credentials w = (Ok (env_pair (environ w)), w).
Proof. reflexivity. Qed.

(** Step 1: a complete override is returned as it is. *)
Lemma get_basic_auth_env account boot w c :
  env_pair (environ w) = Some c →
  get_basic_auth SERVICE_NAME account boot w = (Ok c, w).
Proof. unfold env_pair. intros He. run. wsimpl. now rewrite He. Qed.

(** When both reads answered, both were made. *)
Lemma stored_pair_answered account (b : B) (s : option (string * string)) :
  stored_pair SERVICE_NAME account b = Ok s →
  attempted_reads SERVICE_NAME account b = reads SERVICE_NAME account.
Proof.
  unfold stored_pair, attempted_reads, reads.
  destruct (get_password SERVICE_NAME (_key_names account).1 b); [reflexivity |].
  discriminate.
Qed.

(** Step 2 and step 4, when no bootstrap was asked for. *)
Lemma get_basic_auth_keyring account w :
  env_pair (environ w) = None →
  get_basic_auth SERVICE_NAME account false w =
    (found_or_missing SERVICE_NAME account
       (stored_pair SERVICE_NAME account (keyring w)),
     mkWorld (environ w) (keyring w) (stdin w)
       (trace w ++ attempted_reads SERVICE_NAME account (keyring w))).
Proof.
  unfold env_pair, stored_pair, attempted_reads, found_or_missing.
  intros He. run. wsimpl. rewrite He. clear He.
  destruct (get_password SERVICE_NAME (account +:+ ":username") (keyring w))
    as [u|e1]; [| reflexivity].
  wsimpl. rewrite log_twice.
  destruct (get_password SERVICE_NAME (account +:+ ":password") (keyring w))
    as [p|e2]; [| reflexivity].
  now destruct (truthy_pair u p).
Qed.

(** Step 2 does not look at the bootstrap flag, and neither does a read
    that fails. *)
Lemma get_basic_auth_settled account boot w :
  env_pair (environ w) = None →
  stored_pair SERVICE_NAME account (keyring w) ≠ Ok None →
  get_basic_auth SERVICE_NAME account boot w =
    (found_or_missing SERVICE_NAME account
       (stored_pair SERVICE_NAME account (keyring w)),
     mkWorld (environ w) (keyring w) (stdin w)
       (trace w ++ attempted_reads SERVICE_NAME account (keyring w))).
Proof.
  intros He Hs. destruct boot; [| now apply get_basic_auth_keyring].
  revert Hs. unfold env_pair, stored_pair, attempted_reads, found_or_missing in *.
  run. wsimpl. rewrite He. clear He.
  destruct (get_password SERVICE_NAME (account +:+ ":username") (keyring w))
    as [u|e1]; [| reflexivity].
  wsimpl. rewrite log_twice.
  destruct (get_password SERVICE_NAME (account +:+ ":password") (keyring w))
    as [p|e2]; [| reflexivity].
  destruct (truthy_pair u p); [reflexivity | congruence].
Qed.

Lemma get_basic_auth_stored account boot w c :
  env_pair (environ w) = None →
  stored_pair SERVICE_NAME account (keyring w) = Ok (Some c) →
  get_basic_auth SERVICE_NAME account boot w =
    (Ok c, mkWorld (environ w) (keyring w) (stdin w) (trace w ++ reads SERVICE_NAME account)).
Proof.
  intros He Hs. rewrite get_basic_auth_settled by (assumption || congruence).
  rewrite (stored_pair_answered _ _ _ Hs). now rewrite Hs.
Qed.

(** A read that fails ends the call, whatever the flag. *)
Lemma get_basic_auth_read_failed account boot w e :
  env_pair (environ w) = None →
  stored_pair SERVICE_NAME account (keyring w) = Raise e →
  get_basic_auth SERVICE_NAME account boot w =
    (Raise e,
     mkWorld (environ w) (keyring w) (stdin w)
       (trace w ++ attempted_reads SERVICE_NAME account (keyring w))).
Proof.
  intros He Hs. rewrite get_basic_auth_settled by (assumption || congruence).
  now rewrite Hs.
Qed.

(** Step 3: prompt and persist, then read the keyring again. *)
Lemma get_basic_auth_bootstrap account w :
  env_pair (environ w) = None →
  stored_pair SERVICE_NAME account (keyring w) = Ok None →
  let w1 := mkWorld (environ w) (keyring w) (stdin w) (trace w ++ reads SERVICE_NAME account) in
  let r := set_basic_auth SERVICE_NAME account None None w1 in
  get_basic_auth SERVICE_NAME account true w =
    match r.1 with
    | Raise e => (Raise e, r.2)
    | Ok _ =>
        (found_or_missing SERVICE_NAME account
           (stored_pair SERVICE_NAME account (keyring r.2)),
         mkWorld (environ r.2) (keyring r.2) (stdin r.2)
           (trace r.2 ++ attempted_reads SERVICE_NAME account (keyring r.2)))
    end.
Proof.
  intros He Hs. cbv zeta.
  unfold env_pair, stored_pair, attempted_reads, found_or_missing, reads in *.
  unfold get_basic_auth.
  unfold _env_credentials, os_getenv, keyring_get_password, mbind, M_bind, bind, ret, raise.
  wsimpl. rewrite He. clear He. wsimpl_in Hs.
  destruct (get_password SERVICE_NAME (account +:+ ":username") (keyring w))
    as [u|e1]; [| discriminate].
  wsimpl. rewrite log_twice.
  destruct (get_password SERVICE_NAME (account +:+ ":password") (keyring w))
    as [p|e2]; [| discriminate].
  injection Hs as Hs. rewrite Hs. clear Hs.
  destruct (set_basic_auth _ _ _ _ _) as [[[]|e] w2]; wsimpl; [| reflexivity].
  destruct (get_password SERVICE_NAME (account +:+ ":username") (keyring w2))
    as [u2|e1]; [| reflexivity].
  wsimpl. rewrite log_twice.
  destruct (get_password SERVICE_NAME (account +:+ ":password") (keyring w2))
    as [p2|e2]; [| reflexivity].
  now destruct (truthy_pair u2 p2).
Qed.

End Resolution.

Section Storing.
Context {B : Type} `{Keyring B}.
Variable SERVICE_NAME : string.

Implicit Types (w : World B) (account : string).

Lemma persist_run account u p w :
  let s1 := set_password SERVICE_NAME (_key_names account).1 u (keyring w) in
  let s2 := set_password SERVICE_NAME (_key_names account).2 p s1.2 in
  persist SERVICE_NAME account u p w =
    match s1.1 with
    | Ok _ =>
        (s2.1, mkWorld (environ w) s2.2 (stdin w)
                 (trace w ++ [EvSet SERVICE_NAME (_key_names account).1 u;
                              EvSet SERVICE_NAME (_key_names account).2 p]))
    | Raise e =>
        (Raise e, mkWorld (environ w) s1.2 (stdin w)
                    (trace w ++ [EvSet SERVICE_NAME (_key_names account).1 u]))
    end.
Proof.
  cbv zeta. unfold persist. run. wsimpl.
  destruct (set_password _ _ u _) as [[[]|e] b1]; wsimpl; [| reflexivity].
  unfold log, set_keyring. cbn. now rewrite <- app_assoc.
Qed.

(** Both values supplied and non-empty: no prompt, only the two writes. *)
Lemma set_basic_auth_given account (u p : string) w :
  u ≠ "" → p ≠ "" →
  set_basic_auth SERVICE_NAME account (Some u) (Some p) w
  = persist SERVICE_NAME account u p w.
Proof.
  intros Hu Hp. destruct u; [congruence |]. destruct p; [congruence |].
  reflexivity.
Qed.

(** Nothing supplied and two lines typed: the first is stripped and becomes
    the username, the second becomes the password as it is. *)
Lemma set_basic_auth_prompted account w l1 l2 rest :
  stdin w = l1 :: l2 :: rest →
  set_basic_auth SERVICE_NAME account None None w
  = persist SERVICE_NAME account (Py.strip l1) l2
      (mkWorld (environ w) (keyring w) rest
         (trace w ++ [EvInput "PI Username: "; EvGetpass "PI Password: "])).
Proof.
  intros Hin. unfold persist. run. wsimpl. rewrite Hin. wsimpl.
  unfold log, set_stdin, set_keyring. cbn. now rewrite <- !app_assoc.
Qed.

(** The environment plays no part in storing. *)
Lemma set_basic_auth_set_environ account u p e w :
  set_basic_auth SERVICE_NAME account u p (set_environ e w)
  = ((set_basic_auth SERVICE_NAME account u p w).1,
     set_environ e (set_basic_auth SERVICE_NAME account u p w).2).
Proof.
  run. wsimpl.
  destruct u as [[|cu u]|], p as [[|cp p]|]; wsimpl;
    try (destruct (stdin w) as [|l1 rest]; wsimpl);
    try (destruct rest as [|l2 rest]; wsimpl);
    repeat match goal with
      | |- context [set_password ?s ?k ?v ?b] =>
          destruct (set_password s k v b) as [[[]|?] ?]; wsimpl
      end; reflexivity.
Qed.

End Storing.

(** Closes [Py.contains sub msg = true] from what stands before and after
    [sub] in the message. *)
Ltac found_after pre post :=
  match goal with
  | |- Py.contains ?sub ?msg = true =>
      replace msg with (pre +:+ (sub +:+ post))
        by (unfold missing_message, bootstrap_invocation;
            rewrite ?append_assoc; reflexivity);
      exact (contains_intro pre sub post)
  end.

Section Resolving.
Context {B : Type} `{Keyring B}.
Variable SERVICE_NAME : string.

Implicit Types (w : World B) (account : string).

(** C1. When PI_USER and PI_PASS are both set to non-empty strings,
    [get_basic_auth] returns exactly that pair, for every account, every
    bootstrap flag and every keyring content, and the world it leaves is
    the world it found: nothing was read from or written to the keyring
    (the trace is unchanged), so a different complete pair stored for the
    account plays no part. *)
Theorem env_override_wins account boot w (u p : string) :
  environ w !! ENV_USER = Some u →
  environ w !! ENV_PASS = Some p →
  u ≠ "" → p ≠ "" →
  get_basic_auth SERVICE_NAME account boot w = (Ok (u, p), w).
Proof.
  intros Hu Hp Hue Hpe. apply get_basic_auth_env.
  unfold env_pair. rewrite Hu, Hp. now apply truthy_pair_Some.
Qed.

Lemma set_basic_auth_trace account u p w :
  ∃ more, trace (set_basic_auth SERVICE_NAME account u p w).2 = trace w ++ more.
Proof.
  run. wsimpl.
  destruct u as [[|cu u]|], p as [[|cp p]|]; wsimpl;
    try (destruct (stdin w) as [|l1 rest]; wsimpl);
    try (destruct rest as [|l2 rest]; wsimpl);
    repeat match goal with
      | |- context [set_password ?s ?k ?v ?b] =>
          destruct (set_password s k v b) as [[[]|?] ?]; wsimpl
      end;
    rewrite <- ?app_assoc; eexists; reflexivity.
Qed.

(** Without an override, what [get_basic_auth] does depends on the
    environment in no other way. *)
Lemma get_basic_auth_environ_irrelevant account boot w e e' :
  env_pair e = None → env_pair e' = None →
  get_basic_auth SERVICE_NAME account boot (set_environ e w)
  = ((get_basic_auth SERVICE_NAME account boot (set_environ e' w)).1,
     set_environ e (get_basic_auth SERVICE_NAME account boot (set_environ e' w)).2).
Proof.
  intros He He'.
  destruct (stored_pair SERVICE_NAME account (keyring w)) as [[c|]|ex] eqn:Hs.
  - rewrite !(get_basic_auth_stored _ _ _ _ c) by assumption. reflexivity.
  - destruct boot.
    + rewrite !get_basic_auth_bootstrap by assumption. wsimpl.
      change (mkWorld e (keyring w) (stdin w) (trace w ++ reads SERVICE_NAME account))
        with (set_environ e (mkWorld e' (keyring w) (stdin w)
                               (trace w ++ reads SERVICE_NAME account))).
      rewrite set_basic_auth_set_environ. wsimpl.
      destruct (set_basic_auth _ _ _ _ _) as [[[]|ex] w2]; reflexivity.
    + rewrite !get_basic_auth_keyring by assumption. reflexivity.
  - rewrite !(get_basic_auth_read_failed _ _ _ _ ex) by assumption. reflexivity.
Qed.

(** Without an override the call starts with the reads of the account's
    keys, as far as they go. *)
Lemma get_basic_auth_reads_first account boot w :
  env_pair (environ w) = None →
  ∃ more, trace (get_basic_auth SERVICE_NAME account boot w).2
          = trace w ++ attempted_reads SERVICE_NAME account (keyring w) ++ more.
Proof.
  intros He.
  destruct (stored_pair SERVICE_NAME account (keyring w)) as [[c|]|ex] eqn:Hs.
  - rewrite get_basic_auth_settled by (assumption || congruence).
    exists []. cbn [snd trace]. now rewrite app_nil_r.
  - rewrite (stored_pair_answered _ _ _ _ Hs). destruct boot.
    + rewrite get_basic_auth_bootstrap by assumption.
      match goal with |- context [set_basic_auth ?s ?a ?u ?p ?w1] =>
        destruct (set_basic_auth_trace a u p w1) as [more Hm];
        destruct (set_basic_auth s a u p w1) as [[[]|ex] w2]
      end; cbn [fst snd trace] in *; rewrite Hm, <- ?app_assoc; eexists; reflexivity.
    + rewrite get_basic_auth_keyring by assumption.
      rewrite (stored_pair_answered _ _ _ _ Hs).
      exists []. cbn [snd trace]. now rewrite app_nil_r.
  - rewrite get_basic_auth_settled by (assumption || congruence).
    exists []. cbn [snd trace]. now rewrite app_nil_r.
Qed.

(** C3. With no override from the environment, no complete pair in the
    keyring and no bootstrap, [get_basic_auth] raises [MissingSecretError];
    its message names both environment variables, spells out the command
    that bootstraps the account, and gives the service name and the
    account name. *)
Theorem missing_credentials_are_reported account w :
  env_pair (environ w) = None →
  stored_pair SERVICE_NAME account (keyring w) = Ok None →
  let msg := missing_message SERVICE_NAME account in
  (get_basic_auth SERVICE_NAME account false w).1 = Raise (MissingSecretError msg)
  ∧ Py.contains "PI_USER" msg = true
  ∧ Py.contains "PI_PASS" msg = true
  ∧ Py.contains (bootstrap_invocation account) msg = true
  ∧ Py.contains SERVICE_NAME msg = true
  ∧ Py.contains account msg = true.
Proof.
  intros He Hs msg. subst msg.
  rewrite get_basic_auth_keyring by assumption. rewrite Hs.
  cbn [fst found_or_missing].
  split; [reflexivity |].
  repeat apply conj.
  - found_after ("Missing credentials." +:+ Py.newline +:+ "- Set env vars ")
      ("/" +:+ ENV_PASS +:+ ", OR" +:+ Py.newline
       +:+ "- Run: " +:+ bootstrap_invocation account +:+ Py.newline
       +:+ "(service='" +:+ SERVICE_NAME +:+ "', account='" +:+ account +:+ "')").
  - found_after ("Missing credentials." +:+ Py.newline +:+ "- Set env vars "
                 +:+ ENV_USER +:+ "/")
      (", OR" +:+ Py.newline
       +:+ "- Run: " +:+ bootstrap_invocation account +:+ Py.newline
       +:+ "(service='" +:+ SERVICE_NAME +:+ "', account='" +:+ account +:+ "')").
  - found_after ("Missing credentials." +:+ Py.newline +:+ "- Set env vars "
                 +:+ ENV_USER +:+ "/" +:+ ENV_PASS +:+ ", OR" +:+ Py.newline
                 +:+ "- Run: ")
      (Py.newline +:+ "(service='" +:+ SERVICE_NAME
       +:+ "', account='" +:+ account +:+ "')").
  - found_after ("Missing credentials." +:+ Py.newline +:+ "- Set env vars "
                 +:+ ENV_USER +:+ "/" +:+ ENV_PASS +:+ ", OR" +:+ Py.newline
                 +:+ "- Run: " +:+ bootstrap_invocation account +:+ Py.newline
                 +:+ "(service='")
      ("', account='" +:+ account +:+ "')").
  - found_after ("Missing credentials." +:+ Py.newline +:+ "- Set env vars "
                 +:+ ENV_USER +:+ "/" +:+ ENV_PASS +:+ ", OR" +:+ Py.newline
                 +:+ "- Run: " +:+ bootstrap_invocation account +:+ Py.newline
                 +:+ "(service='" +:+ SERVICE_NAME +:+ "', account='")
      "')".
Qed.

(** C6. When exactly one of PI_USER and PI_PASS is set to a non-empty
    string, [get_basic_auth] behaves as in the environment without either
    variable: same result, same effects, no error on account of the
    partial pair; and the first thing it does is query the keyring for the
    account's user key, followed, when that read answers, by the query for
    the password key. *)
Theorem partial_override_is_ignored account boot w :
  xorb (Py.truthy (environ w !! ENV_USER)) (Py.truthy (environ w !! ENV_PASS)) = true →
  let r := get_basic_auth SERVICE_NAME account boot w in
  let r0 := get_basic_auth SERVICE_NAME account boot
              (set_environ (without_override (environ w)) w) in
  _env_credentials w = (Ok None, w)
  ∧ r = (r0.1, set_environ (environ w) r0.2)
  ∧ (∃ more, trace r.2
             = trace w ++ EvGet SERVICE_NAME (_key_names account).1 :: more)
  ∧ (∀ v, get_password SERVICE_NAME (_key_names account).1 (keyring w) = Ok v →
          ∃ more, trace r.2 = trace w ++ reads SERVICE_NAME account ++ more).
Proof.
  intros Hx. cbv zeta.
  assert (He : env_pair (environ w) = None).
  { unfold env_pair.
    destruct (Py.truthy (environ w !! ENV_USER)) eqn:Tu.
    - apply truthy_pair_falsy_r.
      destruct (Py.truthy (environ w !! ENV_PASS)); [discriminate | reflexivity].
    - now apply truthy_pair_falsy_l. }
  destruct (get_basic_auth_reads_first account boot w He) as [more Hm].
  split; [| split; [| split]].
  - rewrite env_credentials_run. now rewrite He.
  - rewrite <- (set_environ_same w) at 1.
    apply get_basic_auth_environ_irrelevant;
      [exact He | apply env_pair_without_override].
  - rewrite Hm. unfold attempted_reads.
    destruct (get_password SERVICE_NAME (_key_names account).1 (keyring w));
      eexists; reflexivity.
  - intros v Hv. rewrite Hm. unfold attempted_reads, reads. rewrite Hv.
    exists more. reflexivity.
Qed.

(** C8. Without the bootstrap flag [get_basic_auth] never
    prompts: for every account and every world it consumes no terminal
    input and records no prompt, and it ends in one of four ways: the pair
    from the environment, the pair from the keyring, [MissingSecretError],
    or the exception a keyring read raised, as the keyring raised it. *)
Theorem no_prompt_without_bootstrap account w :
  let r := get_basic_auth SERVICE_NAME account false w in
  (stdin r.2 = stdin w
   ∧ ∃ evs, trace r.2 = trace w ++ evs ∧ existsb is_prompt evs = false)
  ∧ ((∃ c, env_pair (environ w) = Some c ∧ r.1 = Ok c)
     ∨ (∃ c, env_pair (environ w) = None
             ∧ stored_pair SERVICE_NAME account (keyring w) = Ok (Some c)
             ∧ r.1 = Ok c)
     ∨ (env_pair (environ w) = None
        ∧ stored_pair SERVICE_NAME account (keyring w) = Ok None
        ∧ r.1 = Raise (MissingSecretError (missing_message SERVICE_NAME account)))
     ∨ (∃ e, env_pair (environ w) = None
             ∧ stored_pair SERVICE_NAME account (keyring w) = Raise e
             ∧ r.1 = Raise e)).
Proof.
  cbv zeta. destruct (env_pair (environ w)) as [c|] eqn:He.
  - rewrite (get_basic_auth_env _ _ _ _ c He). cbn [fst snd].
    split; [split; [reflexivity |] |].
    + exists []. now rewrite app_nil_r.
    + left. now exists c.
  - rewrite (get_basic_auth_keyring _ _ _ He). cbn [fst snd stdin trace].
    split; [split; [reflexivity |] |].
    + exists (attempted_reads SERVICE_NAME account (keyring w)).
      split; [reflexivity |]. unfold attempted_reads.
      now destruct (get_password _ _ _).
    + destruct (stored_pair SERVICE_NAME account (keyring w)) as [[c|]|e].
      * right. left. now exists c.
      * right. right. left. repeat split.
      * right. right. right. now exists e.
Qed.

End Resolving.

Section Deleting.
Context {B : Type} `{Keyring B}.
Variable SERVICE_NAME : string.

Implicit Types (w : World B) (account : string).

Lemma delete_basic_auth_run account w :
  let d1 := delete_password SERVICE_NAME (_key_names account).1 (keyring w) in
  let d2 := delete_password SERVICE_NAME (_key_names account).2 d1.2 in
  let second :=
    (match d2.1 with
     | Ok _ => Ok tt
     | Raise e => if is_PasswordDeleteError e then Ok tt else Raise e
     end,
     mkWorld (environ w) d2.2 (stdin w) (trace w ++ deletes SERVICE_NAME account)) in
  delete_basic_auth SERVICE_NAME account w =
    match d1.1 with
    | Ok _ => second
    | Raise e =>
        if is_PasswordDeleteError e then second
        else (Raise e, mkWorld (environ w) d1.2 (stdin w)
                         (trace w ++ [EvDelete SERVICE_NAME (_key_names account).1]))
    end.
Proof.
  cbv zeta. unfold deletes. run. wsimpl.
  destruct (delete_password _ _ (keyring w)) as [[[]|e1] b1]; wsimpl;
    [| destruct (is_PasswordDeleteError e1); wsimpl; [| reflexivity]];
    (destruct (delete_password _ _ b1) as [[[]|e2] b2]; wsimpl;
     [| destruct (is_PasswordDeleteError e2)];
     unfold log, set_keyring; cbn; now rewrite <- app_assoc).
Qed.

(** C4. [delete_basic_auth] raises exactly when a keyring delete it makes
    fails with something other than [PasswordDeleteError]: that failure on
    the user key, or (the user key deleted or not found) that failure on
    the password key; the exception raised is the keyring's own.  A
    [PasswordDeleteError] on either key is swallowed on its own: unless
    the first delete failed otherwise, both deletes are made and the
    keyring is left as the second one left it. *)
Theorem delete_raises_iff_store_failure account w :
  let d1 := delete_password SERVICE_NAME (_key_names account).1 (keyring w) in
  let d2 := delete_password SERVICE_NAME (_key_names account).2 d1.2 in
  let r := delete_basic_auth SERVICE_NAME account w in
  (∀ e, r.1 = Raise e ↔
        store_failure d1.1 e
        ∨ ((∀ e1, ¬ store_failure d1.1 e1) ∧ store_failure d2.1 e))
  ∧ ((∀ e1, ¬ store_failure d1.1 e1) →
     keyring r.2 = d2.2
     ∧ trace r.2 = trace w ++ deletes SERVICE_NAME account)
  ∧ ((∀ e, ¬ store_failure d1.1 e) ∧ (∀ e, ¬ store_failure d2.1 e) → r.1 = Ok tt).
Proof.
  cbv zeta. rewrite delete_basic_auth_run. unfold store_failure.
  destruct (delete_password _ _ (keyring w)) as [o1 b1]. cbn [fst snd].
  destruct (delete_password _ _ b1) as [o2 b2]. cbn [fst snd].
  assert (Hsecond :
    ∀ e, (match o2 with
          | Ok _ => Ok tt
          | Raise e2 => if is_PasswordDeleteError e2 then Ok tt else Raise e2
          end = Raise e)
         ↔ (o2 = Raise e ∧ is_PasswordDeleteError e = false)).
  { intros e. destruct o2 as [[]|e2]; [| destruct (is_PasswordDeleteError e2) eqn:P2];
      split; try discriminate; try (intros [E P]; discriminate).
    - intros [E P]. injection E as <-. congruence.
    - intros E. injection E as <-. now split.
    - intros [E P]. exact E. }
  assert (Hnone :
    (∀ e, ¬ (o2 = Raise e ∧ is_PasswordDeleteError e = false)) →
    match o2 with
    | Ok _ => Ok tt
    | Raise e2 => if is_PasswordDeleteError e2 then Ok tt else Raise e2
    end = Ok tt).
  { intros N. destruct o2 as [[]|e2]; [reflexivity |].
    destruct (is_PasswordDeleteError e2) eqn:P2; [reflexivity |].
    exfalso. apply (N e2). now split. }
  destruct o1 as [[]|e1]; [| destruct (is_PasswordDeleteError e1) eqn:P1];
    cbn [fst snd keyring trace].
  - (* the user key was deleted *)
    split; [| split].
    + intros e. rewrite Hsecond. split.
      * intros F. right. split; [intros e1 [E _]; discriminate | exact F].
      * intros [[E _] | [_ F]]; [discriminate | exact F].
    + intros _. split; reflexivity.
    + intros [_ N]. now apply Hnone.
  - (* the user key was not found *)
    split; [| split].
    + intros e. rewrite Hsecond. split.
      * intros F. right. split; [| exact F].
        intros e' [E P]. injection E as <-. congruence.
      * intros [[E P] | [_ F]]; [| exact F].
        injection E as <-. congruence.
    + intros _. split; reflexivity.
    + intros [_ N]. now apply Hnone.
  - (* the first delete failed otherwise: the second is not made *)
    split; [| split].
    + intros e. split.
      * intros E. injection E as <-. left. now split.
      * intros [[E _] | [N _]]; [exact E |].
        exfalso. apply (N e1). now split.
    + intros N. exfalso. apply (N e1). now split.
    + intros [N _]. exfalso. apply (N e1). now split.
Qed.

End Deleting.

Section Prompting.
Context {B : Type} `{Keyring B}.
Variable SERVICE_NAME : string.

Implicit Types (w : World B) (account : string).

(** C9. An empty string passed as username or as password is treated as
    if the argument had been left out: [set_basic_auth] prompts for that
    field, and what it persists is the answer to the prompt (the typed
    line, stripped for the username), not the empty string. *)
Theorem empty_string_falls_back_to_prompt account (u p : string) w line rest :
  u ≠ "" → p ≠ "" → stdin w = line :: rest →
  (∀ p', set_basic_auth SERVICE_NAME account (Some "") p' w
         = set_basic_auth SERVICE_NAME account None p' w)
  ∧ (∀ u', set_basic_auth SERVICE_NAME account u' (Some "") w
           = set_basic_auth SERVICE_NAME account u' None w)
  ∧ set_basic_auth SERVICE_NAME account (Some "") (Some p) w
    = persist SERVICE_NAME account (Py.strip line) p
        (mkWorld (environ w) (keyring w) rest
           (trace w ++ [EvInput "PI Username: "]))
  ∧ set_basic_auth SERVICE_NAME account (Some u) (Some "") w
    = persist SERVICE_NAME account u line
        (mkWorld (environ w) (keyring w) rest
           (trace w ++ [EvGetpass "PI Password: "])).
Proof.
  intros Hu Hp Hin.
  split; [reflexivity |]. split; [reflexivity |].
  destruct u as [|cu u]; [congruence |]. destruct p as [|cp p]; [congruence |].
  split; unfold persist; run; wsimpl; rewrite Hin; reflexivity.
Qed.

End Prompting.

Section Lawful.
Context {B : Type} `{KeyringLaws B}.
Variable SERVICE_NAME : string.

Implicit Types (w : World B) (account : string).

(** After the two writes went through, the keyring holds both values. *)
Lemma persist_stored account (u p : string) w :
  (persist SERVICE_NAME account u p w).1 = Ok tt →
  let b := keyring (persist SERVICE_NAME account u p w).2 in
  get_password SERVICE_NAME (_key_names account).1 b = Ok (Some u)
  ∧ get_password SERVICE_NAME (_key_names account).2 b = Ok (Some p).
Proof.
  rewrite persist_run. cbv zeta.
  pose proof (get_set_eq SERVICE_NAME (_key_names account).1 u (keyring w)) as G1.
  destruct (set_password SERVICE_NAME (_key_names account).1 u (keyring w))
    as [[[]|e1] b1]; cbn [fst snd] in *; [| discriminate].
  pose proof (get_set_eq SERVICE_NAME (_key_names account).2 p b1) as G2.
  pose proof (get_set_ne SERVICE_NAME (_key_names account).2 p
                SERVICE_NAME (_key_names account).1 b1) as G3.
  destruct (set_password SERVICE_NAME (_key_names account).2 p b1)
    as [o2 b2]; cbn [fst snd keyring] in *.
  intros Hok. split.
  - rewrite G3; [now apply G1 |].
    apply service_key_ne, user_key_ne_pass_key.
  - now apply G2.
Qed.

(** The two writes change what no other key reads. *)
Lemma persist_frame account (u p : string) w (k : string) :
  k ≠ (_key_names account).1 → k ≠ (_key_names account).2 →
  get_password SERVICE_NAME k (keyring (persist SERVICE_NAME account u p w).2)
  = get_password SERVICE_NAME k (keyring w).
Proof.
  intros K1 K2. rewrite persist_run. cbv zeta.
  pose proof (get_set_ne SERVICE_NAME (_key_names account).1 u
                SERVICE_NAME k (keyring w) (service_key_ne _ _ _ K1)) as G1.
  destruct (set_password SERVICE_NAME (_key_names account).1 u (keyring w))
    as [[[]|e1] b1]; cbn [fst snd keyring] in *; [| exact G1].
  pose proof (get_set_ne SERVICE_NAME (_key_names account).2 p
                SERVICE_NAME k b1 (service_key_ne _ _ _ K2)) as G2.
  destruct (set_password SERVICE_NAME (_key_names account).2 p b1)
    as [o2 b2]; cbn [fst snd keyring] in *.
  now rewrite G2.
Qed.

(** [set_basic_auth] ends in the two writes, unless a prompt found the
    terminal closed; until then keyring and environment stay as they are. *)
Lemma set_basic_auth_cases account u p w :
  (∃ u' p' w', set_basic_auth SERVICE_NAME account u p w
               = persist SERVICE_NAME account u' p' w'
               ∧ keyring w' = keyring w ∧ environ w' = environ w)
  ∨ (keyring (set_basic_auth SERVICE_NAME account u p w).2 = keyring w
     ∧ environ (set_basic_auth SERVICE_NAME account u p w).2 = environ w).
Proof.
  unfold persist. run. wsimpl.
  destruct u as [[|cu u]|], p as [[|cp p]|]; wsimpl;
    try (destruct (stdin w) as [|l1 rest]; wsimpl; [right; split; reflexivity |]);
    try (destruct rest as [|l2 rest]; wsimpl; [right; split; reflexivity |]);
    left; eexists _, _, (mkWorld _ _ _ _); wsimpl; (split; [reflexivity |]);
    split; reflexivity.
Qed.

Lemma persist_environ account (u p : string) w :
  environ (persist SERVICE_NAME account u p w).2 = environ w.
Proof.
  rewrite persist_run. cbv zeta.
  now destruct (set_password _ _ u _) as [[[]|e1] b1].
Qed.

Lemma set_basic_auth_frame account u p w (k : string) :
  k ≠ (_key_names account).1 → k ≠ (_key_names account).2 →
  get_password SERVICE_NAME k (keyring (set_basic_auth SERVICE_NAME account u p w).2)
  = get_password SERVICE_NAME k (keyring w)
  ∧ environ (set_basic_auth SERVICE_NAME account u p w).2 = environ w.
Proof.
  intros K1 K2.
  destruct (set_basic_auth_cases account u p w)
    as [(u' & p' & w' & -> & Hk & He) | [-> ->]]; [| split; reflexivity].
  rewrite persist_frame, persist_environ by assumption.
  now rewrite Hk, He.
Qed.

Lemma delete_basic_auth_frame account w (k : string) :
  k ≠ (_key_names account).1 → k ≠ (_key_names account).2 →
  get_password SERVICE_NAME k (keyring (delete_basic_auth SERVICE_NAME account w).2)
  = get_password SERVICE_NAME k (keyring w)
  ∧ environ (delete_basic_auth SERVICE_NAME account w).2 = environ w.
Proof.
  intros K1 K2. rewrite delete_basic_auth_run. cbv zeta.
  pose proof (get_delete_ne SERVICE_NAME (_key_names account).1
                SERVICE_NAME k (keyring w) (service_key_ne _ _ _ K1)) as G1.
  destruct (delete_password SERVICE_NAME (_key_names account).1 (keyring w))
    as [o1 b1]; cbn [fst snd] in *.
  pose proof (get_delete_ne SERVICE_NAME (_key_names account).2
                SERVICE_NAME k b1 (service_key_ne _ _ _ K2)) as G2.
  destruct (delete_password SERVICE_NAME (_key_names account).2 b1)
    as [o2 b2]; cbn [fst snd] in *.
  destruct o1 as [[]|e1]; [| destruct (is_PasswordDeleteError e1)];
    cbn [fst snd keyring environ]; split; congruence.
Qed.

(** What [get_basic_auth] answers without bootstrap is a function of the
    environment and of what the account's two keys read. *)
Lemma get_basic_auth_result account w :
  (get_basic_auth SERVICE_NAME account false w).1 =
    match env_pair (environ w) with
    | Some c => Ok c
    | None =>
        found_or_missing SERVICE_NAME account
          (stored_pair SERVICE_NAME account (keyring w))
    end.
Proof.
  destruct (env_pair (environ w)) as [c|] eqn:He.
  - now rewrite (get_basic_auth_env _ _ _ _ c He).
  - now rewrite (get_basic_auth_keyring _ _ _ He).
Qed.

(** C2. Round trip with overwrite: after [set_basic_auth] has stored a
    non-empty pair for an account, whatever the keyring held before,
    [get_basic_auth] without bootstrap and without a complete override
    returns exactly that pair; storing needed no prompt. *)
Theorem store_then_resolve account (u p : string) w :
  u ≠ "" → p ≠ "" →
  env_pair (environ w) = None →
  let r := set_basic_auth SERVICE_NAME account (Some u) (Some p) w in
  r.1 = Ok tt →
  (get_basic_auth SERVICE_NAME account false r.2).1 = Ok (u, p)
  ∧ stdin r.2 = stdin w.
Proof.
  intros Hu Hp He. cbv zeta. rewrite set_basic_auth_given by assumption.
  intros Hok. split.
  - rewrite get_basic_auth_result, persist_environ, He.
    destruct (persist_stored account u p w Hok) as [G1 G2].
    unfold stored_pair. rewrite G1, G2. cbn [found_or_missing].
    now rewrite truthy_pair_Some.
  - rewrite persist_run. cbv zeta.
    now destruct (set_password _ _ u _) as [[[]|e1] b1].
Qed.

(** C10. Frame: storing or deleting the credentials of one account leaves
    both keyring entries of every other account as they read before, and
    so [get_basic_auth] without bootstrap answers for the other account
    what it answered before. *)
Theorem other_account_untouched (a b : string) u p w :
  a ≠ b →
  let uk := (_key_names b).1 in
  let pk := (_key_names b).2 in
  let ws := (set_basic_auth SERVICE_NAME a u p w).2 in
  let wd := (delete_basic_auth SERVICE_NAME a w).2 in
  (get_password SERVICE_NAME uk (keyring ws) = get_password SERVICE_NAME uk (keyring w)
   ∧ get_password SERVICE_NAME pk (keyring ws) = get_password SERVICE_NAME pk (keyring w)
   ∧ (get_basic_auth SERVICE_NAME b false ws).1
     = (get_basic_auth SERVICE_NAME b false w).1)
  ∧ (get_password SERVICE_NAME uk (keyring wd) = get_password SERVICE_NAME uk (keyring w)
     ∧ get_password SERVICE_NAME pk (keyring wd) = get_password SERVICE_NAME pk (keyring w)
     ∧ (get_basic_auth SERVICE_NAME b false wd).1
       = (get_basic_auth SERVICE_NAME b false w).1).
Proof.
  intros Hab. cbv zeta.
  assert (U1 : (_key_names b).1 ≠ (_key_names a).1)
    by (intros E; apply Hab; symmetry; exact (user_key_inj _ _ E)).
  assert (U2 : (_key_names b).1 ≠ (_key_names a).2)
    by apply user_key_ne_pass_key.
  assert (P1 : (_key_names b).2 ≠ (_key_names a).1)
    by apply not_eq_sym, user_key_ne_pass_key.
  assert (P2 : (_key_names b).2 ≠ (_key_names a).2)
    by (intros E; apply Hab; symmetry; exact (pass_key_inj _ _ E)).
  destruct (set_basic_auth_frame a u p w _ U1 U2) as [Su Se].
  destruct (set_basic_auth_frame a u p w _ P1 P2) as [Sp _].
  destruct (delete_basic_auth_frame a w _ U1 U2) as [Du De].
  destruct (delete_basic_auth_frame a w _ P1 P2) as [Dp _].
  repeat apply conj; try assumption.
  - rewrite !get_basic_auth_result. unfold stored_pair. now rewrite Se, Su, Sp.
  - rewrite !get_basic_auth_result. unfold stored_pair. now rewrite De, Du, Dp.
Qed.

End Lawful.

(** ** The reference backend *)

#[export] Instance MemKeyring_laws : KeyringLaws MemKeyring.
Proof.
  split.
  - intros s k v [m [|]]; cbn; [discriminate |].
    intros _. unfold mem_get. cbn. f_equal. apply lookup_insert_eq.
  - intros s k v s' k' [m [|]] Hne; cbn; [reflexivity |].
    unfold mem_get. cbn. f_equal. apply lookup_insert_ne. congruence.
  - intros s k [m [|]]; cbn.
    + intros Hnf. specialize (Hnf _ eq_refl). discriminate.
    + intros _. unfold mem_delete, mem_get. cbn.
      destruct (m !! (s, k)) eqn:E; cbn; f_equal;
        [apply lookup_delete_eq | exact E].
  - intros s k s' k' [m [|]] Hne; cbn; [reflexivity |].
    unfold mem_delete, mem_get. cbn.
    destruct (m !! (s, k)) eqn:E; cbn; [| reflexivity].
    f_equal. apply lookup_delete_ne. congruence.
Qed.

(** Whatever the backend, a pair that comes out of the bootstrap step is
    the pair the keyring holds when the call returns: it was read back, not
    carried over from the prompt. *)
Lemma bootstrap_returns_the_stored_pair {B} `{Keyring B}
    (SERVICE_NAME account : string) (w : World B) (c : string * string) :
  env_pair (environ w) = None →
  stored_pair SERVICE_NAME account (keyring w) = Ok None →
  (get_basic_auth SERVICE_NAME account true w).1 = Ok c →
  stored_pair SERVICE_NAME account
    (keyring (get_basic_auth SERVICE_NAME account true w).2) = Ok (Some c).
Proof.
  intros He Hs. rewrite get_basic_auth_bootstrap by assumption. cbv zeta.
  destruct (set_basic_auth _ _ _ _ _) as [[[]|ex] w2]; cbn [fst snd keyring];
    [| discriminate].
  destruct (stored_pair SERVICE_NAME account (keyring w2)) as [[c2|]|e2];
    cbn [found_or_missing]; try discriminate.
  intros E. now injection E as <-.
Qed.

(** C7. Bootstrap persists.  On an empty keyring, with no override and the
    lines [alice] and [s3cr3t] typed, [get_basic_auth] with bootstrap prompts
    twice, writes both keys, reads both keys again and returns
    [("alice", "s3cr3t")]; the keyring then holds that pair, and a second
    call without bootstrap returns it with no prompt.  On any backend the
    pair returned by the bootstrap step is the one read back from the
    keyring after the writes. *)
Theorem bootstrap_persists (SERVICE_NAME account : string)
    (e : gmap string string) (rest : list string) (tr : list event) :
  env_pair e = None →
  let uk := (_key_names account).1 in
  let pk := (_key_names account).2 in
  let w0 := mkWorld e empty_keyring ("alice" :: "s3cr3t" :: rest) tr in
  let r := get_basic_auth SERVICE_NAME account true w0 in
  let r' := get_basic_auth SERVICE_NAME account false r.2 in
  (r.1 = Ok ("alice", "s3cr3t")
   ∧ trace r.2 = tr ++ reads SERVICE_NAME account
                    ++ [EvInput "PI Username: "; EvGetpass "PI Password: ";
                        EvSet SERVICE_NAME uk "alice"; EvSet SERVICE_NAME pk "s3cr3t"]
                    ++ reads SERVICE_NAME account
   ∧ stored_pair SERVICE_NAME account (keyring r.2) = Ok (Some ("alice", "s3cr3t"))
   ∧ stdin r.2 = rest)
  ∧ (r'.1 = Ok ("alice", "s3cr3t")
     ∧ stdin r'.2 = rest
     ∧ trace r'.2 = trace r.2 ++ reads SERVICE_NAME account
     ∧ keyring r'.2 = keyring r.2)
  ∧ (∀ (B : Type) (K : Keyring B) (w : World B) (c : string * string),
       env_pair (environ w) = None →
       stored_pair SERVICE_NAME account (keyring w) = Ok None →
       (get_basic_auth SERVICE_NAME account true w).1 = Ok c →
       stored_pair SERVICE_NAME account
         (keyring (get_basic_auth SERVICE_NAME account true w).2) = Ok (Some c)).
Proof.
  intros He. cbv zeta.
  assert (Hk : (SERVICE_NAME, (_key_names account).2)
               ≠ (SERVICE_NAME, (_key_names account).1))
    by apply not_eq_sym, service_key_ne, user_key_ne_pass_key.
  assert (Hrun :
    get_basic_auth SERVICE_NAME account true
      (mkWorld e empty_keyring ("alice" :: "s3cr3t" :: rest) tr)
    = (Ok ("alice", "s3cr3t"),
       mkWorld e
         (mkMem (<[(SERVICE_NAME, (_key_names account).2) := "s3cr3t"]>
                   (<[(SERVICE_NAME, (_key_names account).1) := "alice"]> ∅)) false)
         rest
         (tr ++ reads SERVICE_NAME account
             ++ [EvInput "PI Username: "; EvGetpass "PI Password: ";
                 EvSet SERVICE_NAME (_key_names account).1 "alice";
                 EvSet SERVICE_NAME (_key_names account).2 "s3cr3t"]
             ++ reads SERVICE_NAME account))).
  { rewrite get_basic_auth_bootstrap; [| exact He | reflexivity].
    cbv zeta. cbn [environ keyring stdin trace].
    rewrite (set_basic_auth_prompted _ _ _ "alice" "s3cr3t" rest) by reflexivity.
    rewrite persist_run. cbv zeta.
    cbn [environ keyring stdin trace set_password MemKeyring_backend mem_set
         empty_keyring locked entries fst snd].
    change (Py.strip "alice") with "alice".
    unfold stored_pair, attempted_reads.
    cbn [get_password MemKeyring_backend]. unfold mem_get. cbn [entries].
    rewrite lookup_insert_ne, lookup_insert_eq, lookup_insert_eq by exact Hk.
    cbn [found_or_missing truthy_pair Py.truthy andb].
    rewrite <- !app_assoc. reflexivity. }
  rewrite Hrun. cbn [fst snd stdin trace keyring].
  assert (Hst : stored_pair SERVICE_NAME account
                  (mkMem (<[(SERVICE_NAME, (_key_names account).2) := "s3cr3t"]>
                            (<[(SERVICE_NAME, (_key_names account).1) := "alice"]> ∅))
                     false)
                = Ok (Some ("alice", "s3cr3t"))).
  { unfold stored_pair. cbn [get_password MemKeyring_backend]. unfold mem_get.
    cbn [entries].
    now rewrite lookup_insert_ne, lookup_insert_eq, lookup_insert_eq by exact Hk. }
  split; [| split].
  - repeat apply conj; try reflexivity. exact Hst.
  - rewrite (get_basic_auth_stored _ _ _ _ ("alice", "s3cr3t")); [| exact He | exact Hst].
    repeat apply conj; reflexivity.
  - intros B K w c. apply bootstrap_returns_the_stored_pair.
Qed.

(** ** The statements at sample worlds *)

Lemma env_override_wins_witness :
  let w := fresh_world ci_environ alice_keyring [] in
  (environ w !! ENV_USER = Some "ci-user"
   ∧ environ w !! ENV_PASS = Some "ci-token"
   ∧ "ci-user" ≠ "" ∧ "ci-token" ≠ "")
  ∧ get_basic_auth "pi-weblogger" "prod" true w = (Ok ("ci-user", "ci-token"), w).
Proof.
  cbv zeta. split.
  - repeat apply conj; first [reflexivity | discriminate].
  - apply env_override_wins; first [reflexivity | discriminate].
Defined.

Lemma store_then_resolve_witness :
  let w := fresh_world ∅ alice_keyring [] in
  let r := set_basic_auth "pi-weblogger" "prod" (Some "bob") (Some "hunter2") w in
  ("bob" ≠ "" ∧ "hunter2" ≠ "" ∧ env_pair (environ w) = None ∧ r.1 = Ok tt)
  ∧ (get_basic_auth "pi-weblogger" "prod" false r.2).1 = Ok ("bob", "hunter2")
  ∧ stdin r.2 = stdin w.
Proof.
  cbv zeta. split.
  - repeat apply conj; first [reflexivity | discriminate].
  - apply (store_then_resolve "pi-weblogger" "prod" "bob" "hunter2"
             (fresh_world ∅ alice_keyring []));
      first [reflexivity | discriminate].
Defined.

Lemma missing_credentials_are_reported_witness :
  let w := fresh_world ∅ empty_keyring [] in
  let msg := missing_message "pi-weblogger" "prod" in
  (env_pair (environ w) = None ∧ stored_pair "pi-weblogger" "prod" (keyring w) = Ok None)
  ∧ (get_basic_auth "pi-weblogger" "prod" false w).1 = Raise (MissingSecretError msg)
  ∧ Py.contains "PI_USER" msg = true
  ∧ Py.contains "PI_PASS" msg = true
  ∧ Py.contains (bootstrap_invocation "prod") msg = true
  ∧ Py.contains "pi-weblogger" msg = true
  ∧ Py.contains "prod" msg = true.
Proof.
  cbv zeta. split.
  - split; reflexivity.
  - apply (missing_credentials_are_reported "pi-weblogger" "prod"
             (fresh_world ∅ empty_keyring [])); reflexivity.
Defined.

Lemma partial_override_is_ignored_witness :
  let w := fresh_world half_environ alice_keyring [] in
  let r := get_basic_auth "pi-weblogger" "prod" false w in
  let r0 := get_basic_auth "pi-weblogger" "prod" false
              (set_environ (without_override (environ w)) w) in
  xorb (Py.truthy (environ w !! ENV_USER)) (Py.truthy (environ w !! ENV_PASS)) = true
  ∧ _env_credentials w = (Ok None, w)
  ∧ r = (r0.1, set_environ (environ w) r0.2)
  ∧ (∃ more, trace r.2
             = trace w ++ EvGet "pi-weblogger" (_key_names "prod").1 :: more)
  ∧ (∀ v, get_password "pi-weblogger" (_key_names "prod").1 (keyring w) = Ok v →
          ∃ more, trace r.2 = trace w ++ reads "pi-weblogger" "prod" ++ more).
Proof.
  cbv zeta. split.
  - reflexivity.
  - apply (partial_override_is_ignored "pi-weblogger" "prod" false
             (fresh_world half_environ alice_keyring [])).
    reflexivity.
Defined.

Lemma bootstrap_persists_witness :
  let w0 := mkWorld ∅ empty_keyring ["alice"; "s3cr3t"] [] in
  let r := get_basic_auth "pi-weblogger" "prod" true w0 in
  let r' := get_basic_auth "pi-weblogger" "prod" false r.2 in
  env_pair ∅ = None
  ∧ r.1 = Ok ("alice", "s3cr3t")
  ∧ stored_pair "pi-weblogger" "prod" (keyring r.2) = Ok (Some ("alice", "s3cr3t"))
  ∧ r'.1 = Ok ("alice", "s3cr3t")
  ∧ trace r'.2 = trace r.2 ++ reads "pi-weblogger" "prod".
Proof.
  cbv zeta.
  assert (He : env_pair ∅ = None) by reflexivity.
  destruct (bootstrap_persists "pi-weblogger" "prod" ∅ [] [] He)
    as [(R1 & _ & R3 & _) [(S1 & _ & S3 & _) _]].
  repeat apply conj; assumption.
Defined.

Lemma empty_string_falls_back_to_prompt_witness :
  let w := fresh_world ∅ empty_keyring ["  carol "] in
  ("dave" ≠ "" ∧ "pw" ≠ "" ∧ stdin w = ["  carol "])
  ∧ set_basic_auth "pi-weblogger" "prod" (Some "") (Some "pw") w
    = persist "pi-weblogger" "prod" "carol" "pw"
        (mkWorld ∅ empty_keyring [] [EvInput "PI Username: "])
  ∧ set_basic_auth "pi-weblogger" "prod" (Some "dave") (Some "") w
    = persist "pi-weblogger" "prod" "dave" "  carol "
        (mkWorld ∅ empty_keyring [] [EvGetpass "PI Password: "]).
Proof.
  cbv zeta. split.
  - repeat apply conj; first [reflexivity | discriminate].
  - assert (Hu : "dave" ≠ "") by discriminate.
    assert (Hp : "pw" ≠ "") by discriminate.
    destruct (empty_string_falls_back_to_prompt "pi-weblogger" "prod" "dave" "pw"
                (fresh_world ∅ empty_keyring ["  carol "]) "  carol " [] Hu Hp eq_refl)
      as (_ & _ & E1 & E2).
    split; [exact E1 | exact E2].
Defined.

Lemma other_account_untouched_witness :
  let w := fresh_world ∅ alice_keyring [] in
  let ws := (set_basic_auth "pi-weblogger" "prod" (Some "bob") (Some "hunter2") w).2 in
  let wd := (delete_basic_auth "pi-weblogger" "prod" w).2 in
  "prod" ≠ "test"
  ∧ (get_basic_auth "pi-weblogger" "test" false ws).1
    = (get_basic_auth "pi-weblogger" "test" false w).1
  ∧ (get_basic_auth "pi-weblogger" "test" false wd).1
    = (get_basic_auth "pi-weblogger" "test" false w).1.
Proof.
  cbv zeta.
  assert (Hne : "prod" ≠ "test") by discriminate.
  destruct (other_account_untouched "pi-weblogger" "prod" "test"
              (Some "bob") (Some "hunter2") (fresh_world ∅ alice_keyring []) Hne)
    as [(_ & _ & S) (_ & _ & D)].
  repeat apply conj; assumption.
Defined.

(** Where a keyring read raises, a call without bootstrap ends in neither
    a pair nor [MissingSecretError]: on a machine with no keyring backend
    the first read raises, the exception comes through and the second read
    is not made. *)
Lemma no_prompt_without_bootstrap_counterexample :
  let r := get_basic_auth "pi-weblogger" "prod" false
             (fresh_world ∅ no_keyring []) in
  r.1 = Raise no_backend
  ∧ ¬ returns_pair_or_missing r.1
  ∧ trace r.2 = [EvGet "pi-weblogger" "prod:username"].
Proof.
  cbv zeta. repeat apply conj.
  - reflexivity.
  - intros [[c E] | [msg E]]; vm_compute in E; discriminate.
  - reflexivity.
Qed.

(** ** Sample runs *)

(** Store, store again, resolve: the later pair replaces the earlier one. *)
Example overwrite_not_merge :
  let w1 := (set_basic_auth "pi-weblogger" "prod" (Some "alice") (Some "s3cr3t")
               (fresh_world ∅ empty_keyring [])).2 in
  let w2 := (set_basic_auth "pi-weblogger" "prod" (Some "bob") (Some "hunter2") w1).2 in
  (get_basic_auth "pi-weblogger" "prod" false w2).1 = Ok ("bob", "hunter2")
  ∧ size (entries (keyring w2)) = 2.
Proof. split; vm_compute; reflexivity. Qed.

(** Deleting a pair of which only the password key exists succeeds and
    removes that key. *)
Example delete_partial_pair :
  let r := delete_basic_auth "pi-weblogger" "prod" (fresh_world ∅ half_keyring []) in
  r.1 = Ok tt
  ∧ entries (keyring r.2) = ∅
  ∧ trace r.2 = deletes "pi-weblogger" "prod".
Proof. repeat apply conj; vm_compute; reflexivity. Qed.

(** Deleting on an empty keyring succeeds. *)
Example delete_absent :
  (delete_basic_auth "pi-weblogger" "prod" (fresh_world ∅ empty_keyring [])).1 = Ok tt.
Proof. reflexivity. Qed.

(** A locked keyring fails the first delete; the failure comes through as
    it is and the second delete is not made. *)
Example delete_locked :
  let r := delete_basic_auth "pi-weblogger" "prod"
             (fresh_world ∅ (mkMem (entries alice_keyring) true) []) in
  r.1 = Raise (StoreFailure "keyring is locked")
  ∧ trace r.2 = [EvDelete "pi-weblogger" "prod:username"].
Proof. split; vm_compute; reflexivity. Qed.

(** A backend that drops writes: the typed values are not returned. *)
Example lossy_backend_is_not_trusted :
  (get_basic_auth "pi-weblogger" "prod" true
     (fresh_world ∅ (mkLossy ∅) ["alice"; "s3cr3t"])).1
  = Raise (MissingSecretError (missing_message "pi-weblogger" "prod")).
Proof. vm_compute. reflexivity. Qed.

(** With bootstrap the prompts do show in the trace. *)
Example bootstrap_prompts :
  existsb is_prompt
    (trace (get_basic_auth "pi-weblogger" "prod" true
              (fresh_world ∅ empty_keyring ["alice"; "s3cr3t"])).2) = true.
Proof. vm_compute. reflexivity. Qed.

Example strip_examples :
  Py.strip "  carol " = "carol" ∧ Py.strip "a b" = "a b" ∧ Py.strip "   " = "".
Proof. repeat apply conj; reflexivity. Qed.

Example import_defaults :
  import_SERVICE_NAME ∅ = "pi-weblogger"
  ∧ import_DEFAULT_ACCOUNT ∅ = "prod"
  ∧ import_SERVICE_NAME (<["KEYRING_SERVICE" := "staging"]> ∅) = "staging".
Proof. repeat apply conj; vm_compute; reflexivity. Qed.

(** * Beyond the resolution policy *)

(** ** What a call leaves behind *)

Section ReadOnly.
Context {B : Type} `{Keyring B}.
Variable SERVICE_NAME : string.

Implicit Types (w : World B) (account : string).

(** X1. Without bootstrap [get_basic_auth] only reads: keyring,
    environment and terminal are left as they were, and the only calls it
    makes are reads of the account's keys: none under a complete override,
    else the read of the user key, followed by the read of the password key
    unless the first read raised. *)
Theorem resolve_without_bootstrap_is_read_only account w :
  let r := get_basic_auth SERVICE_NAME account false w in
  keyring r.2 = keyring w
  ∧ environ r.2 = environ w
  ∧ stdin r.2 = stdin w
  ∧ trace r.2 = trace w ++ match env_pair (environ w) with
                           | Some _ => []
                           | None => attempted_reads SERVICE_NAME account (keyring w)
                           end.
Proof.
  cbv zeta. destruct (env_pair (environ w)) as [c|] eqn:He.
  - rewrite (get_basic_auth_env _ _ _ _ c He). cbn [snd].
    now rewrite app_nil_r.
  - rewrite (get_basic_auth_keyring _ _ _ He). cbn [snd keyring environ stdin trace].
    repeat apply conj; reflexivity.
Qed.

(** X2. The bootstrap flag plays no part unless the reads answer and find
    no complete pair: with a complete override, a complete stored pair or a
    read that raises, [get_basic_auth] with bootstrap does exactly what it
    does without (same result, same world, so no prompt and no write). *)
Theorem bootstrap_flag_unused_when_available account w :
  env_pair (environ w) ≠ None ∨ stored_pair SERVICE_NAME account (keyring w) ≠ Ok None →
  get_basic_auth SERVICE_NAME account true w
  = get_basic_auth SERVICE_NAME account false w.
Proof.
  intros Hav. destruct (env_pair (environ w)) as [c|] eqn:He.
  - now rewrite !(get_basic_auth_env _ _ _ _ c He).
  - destruct Hav as [Hav | Hav]; [contradiction |].
    now rewrite !(get_basic_auth_settled _ _ _ _ He Hav).
Qed.

(** X3. Whatever the source and the flag, a pair that [get_basic_auth]
    returns has a non-empty username and a non-empty password. *)
Theorem resolved_pair_is_non_empty account boot w (c : string * string) :
  (get_basic_auth SERVICE_NAME account boot w).1 = Ok c →
  c.1 ≠ "" ∧ c.2 ≠ "".
Proof.
  assert (Hne : ∀ u p, truthy_pair u p = Some c → c.1 ≠ "" ∧ c.2 ≠ "")
    by (intros u p E; apply truthy_pair_inv in E; tauto).
  assert (Hst : ∀ b, stored_pair SERVICE_NAME account b = Ok (Some c) →
                     c.1 ≠ "" ∧ c.2 ≠ "").
  { intros b. unfold stored_pair.
    destruct (get_password _ _ b) as [u|]; [| discriminate].
    destruct (get_password _ _ b) as [p|]; [| discriminate].
    intros E. injection E as E. exact (Hne _ _ E). }
  destruct (env_pair (environ w)) as [c0|] eqn:He.
  - rewrite (get_basic_auth_env _ _ _ _ c0 He). cbn [fst].
    intros E. injection E as <-. exact (Hne _ _ He).
  - destruct (stored_pair SERVICE_NAME account (keyring w)) as [[c0|]|ex] eqn:Hs.
    + rewrite (get_basic_auth_stored _ _ _ _ c0 He Hs). cbn [fst].
      intros E. injection E as <-. exact (Hst _ Hs).
    + destruct boot.
      * rewrite get_basic_auth_bootstrap by assumption. cbv zeta.
        destruct (set_basic_auth _ _ _ _ _) as [[[]|ex] w2]; cbn [fst snd];
          [| discriminate].
        destruct (stored_pair SERVICE_NAME account (keyring w2)) as [[c0|]|ex] eqn:Hs2;
          cbn [fst found_or_missing]; try discriminate.
        intros E. injection E as <-. exact (Hst _ Hs2).
      * rewrite (get_basic_auth_keyring _ _ _ He), Hs. discriminate.
    + rewrite (get_basic_auth_read_failed _ _ _ _ ex He Hs). discriminate.
Qed.

(** X4. [requests_session] first imports [requests]: when the library is
    not installed it raises [ModuleNotFoundError] before anything else
    happens.  Otherwise it resolves like [requests_auth] and puts the pair
    on the session: the override when it is complete, else the stored pair,
    else [MissingSecretError], or the exception a keyring read raised.  It
    consumes no terminal input and leaves the keyring as it was. *)
Theorem requests_session_carries_resolved_pair (installed : bool) account w :
  let r := requests_session SERVICE_NAME installed account w in
  r.1 = (if installed then
           match env_pair (environ w) with
           | Some c => Ok (mkSession (Some c))
           | None =>
               match stored_pair SERVICE_NAME account (keyring w) with
               | Ok (Some c) => Ok (mkSession (Some c))
               | Ok None =>
                   Raise (MissingSecretError (missing_message SERVICE_NAME account))
               | Raise e => Raise e
               end
           end
         else Raise (ModuleNotFoundError "No module named 'requests'"))
  ∧ r.2 = (if installed then (requests_auth SERVICE_NAME account w).2 else w)
  ∧ stdin r.2 = stdin w
  ∧ keyring r.2 = keyring w.
Proof.
  cbv zeta.
  unfold requests_session, import_requests, requests_auth, mbind, M_bind, bind,
    ret, raise.
  destruct installed; [| repeat apply conj; reflexivity].
  destruct (env_pair (environ w)) as [c|] eqn:He.
  - rewrite (get_basic_auth_env _ _ _ _ c He). repeat apply conj; reflexivity.
  - rewrite (get_basic_auth_keyring _ _ _ He).
    destruct (stored_pair SERVICE_NAME account (keyring w)) as [[c|]|e];
      repeat apply conj; reflexivity.
Qed.

Lemma set_basic_auth_closed_terminal account u p w :
  List.length (stdin w) < prompts_needed u p →
  let r := set_basic_auth SERVICE_NAME account u p w in
  r.1 = Raise EOFError
  ∧ keyring r.2 = keyring w
  ∧ ∃ evs, trace r.2 = trace w ++ evs ∧ forallb is_prompt evs = true.
Proof.
  intros Hlen. cbv zeta. run. wsimpl.
  destruct u as [[|cu u]|], p as [[|cp p]|]; cbn in Hlen; wsimpl;
    try lia;
    (destruct (stdin w) as [|l1 rest] eqn:Hin; cbn in Hlen; wsimpl;
     [| try lia;
        try (destruct rest as [|l2 rest]; cbn in Hlen; wsimpl; [| lia])]);
    (split; [reflexivity |]); (split; [reflexivity |]);
    rewrite <- ?app_assoc; eexists; (split; [reflexivity | reflexivity]).
Qed.

(** X5. A terminal that closes before every missing value was typed makes
    [set_basic_auth] raise [EOFError] with nothing written: the keyring is
    as it was and the only calls made are prompts.  In particular a
    username is never written without its password. *)
Theorem closed_terminal_writes_nothing account u p w :
  List.length (stdin w) < prompts_needed u p →
  let r := set_basic_auth SERVICE_NAME account u p w in
  r.1 = Raise EOFError
  ∧ keyring r.2 = keyring w
  ∧ ∃ evs, trace r.2 = trace w ++ evs ∧ forallb is_prompt evs = true.
Proof. apply set_basic_auth_closed_terminal. Qed.

(** X6. Bootstrap on a closed terminal: with no credentials anywhere and
    fewer than two lines to read, [get_basic_auth] with bootstrap raises
    [EOFError], not [MissingSecretError], and writes nothing. *)
Theorem bootstrap_on_closed_terminal account w :
  env_pair (environ w) = None →
  stored_pair SERVICE_NAME account (keyring w) = Ok None →
  List.length (stdin w) < 2 →
  let r := get_basic_auth SERVICE_NAME account true w in
  r.1 = Raise EOFError ∧ keyring r.2 = keyring w.
Proof.
  intros He Hs Hlen. cbv zeta.
  rewrite get_basic_auth_bootstrap by assumption. cbv zeta.
  match goal with |- context [set_basic_auth ?s ?a ?u ?p ?w1] =>
    destruct (set_basic_auth_closed_terminal a u p w1 Hlen) as (R & K & _)
  end.
  cbv zeta in R, K.
  destruct (set_basic_auth _ _ _ _ _) as [o w2]. cbn [fst snd] in *.
  subst o. split; [reflexivity | exact K].
Qed.

(** X13. The environment matters through PI_USER and PI_PASS alone: two
    environments that agree on both give the same result and the same
    effects, whatever else differs between them (KEYRING_SERVICE and
    KEYRING_ACCOUNT included, which are read when the module is imported and
    not again). *)
Theorem only_override_variables_matter account boot w (e e' : gmap string string) :
  e !! ENV_USER = e' !! ENV_USER →
  e !! ENV_PASS = e' !! ENV_PASS →
  let r' := get_basic_auth SERVICE_NAME account boot (set_environ e' w) in
  get_basic_auth SERVICE_NAME account boot (set_environ e w)
  = (r'.1, set_environ e r'.2).
Proof.
  intros Hu Hp. cbv zeta.
  assert (Hpair : env_pair e = env_pair e')
    by (unfold env_pair; now rewrite Hu, Hp).
  destruct (env_pair e') as [c|] eqn:He'.
  - rewrite (get_basic_auth_env _ _ _ (set_environ e w) c) by exact Hpair.
    rewrite (get_basic_auth_env _ _ _ (set_environ e' w) c) by exact He'.
    reflexivity.
  - now apply get_basic_auth_environ_irrelevant.
Qed.

End ReadOnly.

(** ** On a backend that honours the contract *)

#[export] Instance QuotaKeyring_laws : KeyringLaws QuotaKeyring.
Proof.
  split.
  - intros s k v [m n]. cbn. unfold quota_set. cbn.
    destruct (m !! (s, k)) eqn:E; [| destruct n]; cbn;
      first [discriminate | intros _; f_equal; apply lookup_insert_eq].
  - intros s k v s' k' [m n] Hne. cbn. unfold quota_set. cbn.
    destruct (m !! (s, k)) eqn:E; [| destruct n]; cbn;
      first [reflexivity | f_equal; apply lookup_insert_ne; congruence].
  - intros s k [m n] _. cbn. unfold quota_delete. cbn.
    destruct (m !! (s, k)) eqn:E; cbn; f_equal;
      [apply lookup_delete_eq | exact E].
  - intros s k s' k' [m n] Hne. cbn. unfold quota_delete. cbn.
    destruct (m !! (s, k)) eqn:E; cbn; [| reflexivity].
    f_equal. apply lookup_delete_ne. congruence.
Qed.

Section LawfulMore.
Context {B : Type} `{KeyringLaws B}.
Variable SERVICE_NAME : string.

Implicit Types (w : World B) (account : string).

(** The two writes change what no other (service, key) reads. *)
Lemma persist_frame_service account (u p : string) w (s k : string) :
  (s, k) ≠ (SERVICE_NAME, (_key_names account).1) →
  (s, k) ≠ (SERVICE_NAME, (_key_names account).2) →
  get_password s k (keyring (persist SERVICE_NAME account u p w).2)
  = get_password s k (keyring w).
Proof.
  intros K1 K2. rewrite persist_run. cbv zeta.
  pose proof (get_set_ne SERVICE_NAME (_key_names account).1 u s k (keyring w) K1) as G1.
  destruct (set_password SERVICE_NAME (_key_names account).1 u (keyring w))
    as [[[]|e1] b1]; cbn [fst snd keyring] in *; [| exact G1].
  pose proof (get_set_ne SERVICE_NAME (_key_names account).2 p s k b1 K2) as G2.
  destruct (set_password SERVICE_NAME (_key_names account).2 p b1)
    as [o2 b2]; cbn [fst snd keyring] in *.
  now rewrite G2.
Qed.

Lemma set_basic_auth_frame_service account u p w (s k : string) :
  (s, k) ≠ (SERVICE_NAME, (_key_names account).1) →
  (s, k) ≠ (SERVICE_NAME, (_key_names account).2) →
  get_password s k (keyring (set_basic_auth SERVICE_NAME account u p w).2)
  = get_password s k (keyring w).
Proof.
  intros K1 K2.
  destruct (set_basic_auth_cases SERVICE_NAME account u p w)
    as [(u' & p' & w' & -> & Hk & He) | [-> _]]; [| reflexivity].
  rewrite persist_frame_service by assumption. now rewrite Hk.
Qed.

Lemma delete_basic_auth_frame_service account w (s k : string) :
  (s, k) ≠ (SERVICE_NAME, (_key_names account).1) →
  (s, k) ≠ (SERVICE_NAME, (_key_names account).2) →
  get_password s k (keyring (delete_basic_auth SERVICE_NAME account w).2)
  = get_password s k (keyring w).
Proof.
  intros K1 K2. rewrite delete_basic_auth_run. cbv zeta.
  pose proof (get_delete_ne SERVICE_NAME (_key_names account).1 s k (keyring w) K1) as G1.
  destruct (delete_password SERVICE_NAME (_key_names account).1 (keyring w))
    as [o1 b1]; cbn [fst snd] in *.
  pose proof (get_delete_ne SERVICE_NAME (_key_names account).2 s k b1 K2) as G2.
  destruct (delete_password SERVICE_NAME (_key_names account).2 b1)
    as [o2 b2]; cbn [fst snd] in *.
  destruct o1 as [[]|e1]; [| destruct (is_PasswordDeleteError e1)];
    cbn [fst snd keyring]; congruence.
Qed.

Lemma delete_basic_auth_environ account w :
  environ (delete_basic_auth SERVICE_NAME account w).2 = environ w.
Proof.
  rewrite delete_basic_auth_run. cbv zeta.
  destruct (delete_password SERVICE_NAME (_key_names account).1 (keyring w))
    as [o1 b1]; cbn [fst snd].
  destruct o1 as [[]|e1]; [| destruct (is_PasswordDeleteError e1)]; reflexivity.
Qed.

Lemma set_basic_auth_environ account u p w :
  environ (set_basic_auth SERVICE_NAME account u p w).2 = environ w.
Proof.
  destruct (set_basic_auth_cases SERVICE_NAME account u p w)
    as [(u' & p' & w' & -> & Hk & He) | [_ ->]]; [| reflexivity].
  now rewrite persist_environ.
Qed.

(** X7. Credentials live under the service name: storing or deleting under
    one service leaves every account's pair under any other service as it
    read before, the same account included, so resolving under the other
    service answers what it answered before. *)
Theorem other_service_untouched (other_service a b : string) u p w :
  other_service ≠ SERVICE_NAME →
  let ws := (set_basic_auth SERVICE_NAME a u p w).2 in
  let wd := (delete_basic_auth SERVICE_NAME a w).2 in
  (stored_pair other_service b (keyring ws) = stored_pair other_service b (keyring w)
   ∧ (get_basic_auth other_service b false ws).1
     = (get_basic_auth other_service b false w).1)
  ∧ (stored_pair other_service b (keyring wd) = stored_pair other_service b (keyring w)
     ∧ (get_basic_auth other_service b false wd).1
       = (get_basic_auth other_service b false w).1).
Proof.
  intros Hsv. cbv zeta.
  assert (K : ∀ k k' : string, (other_service, k) ≠ (SERVICE_NAME, k'))
    by (intros k k' E; apply Hsv; now injection E).
  assert (S : stored_pair other_service b
                (keyring (set_basic_auth SERVICE_NAME a u p w).2)
              = stored_pair other_service b (keyring w))
    by (unfold stored_pair; now rewrite !set_basic_auth_frame_service by apply K).
  assert (D : stored_pair other_service b
                (keyring (delete_basic_auth SERVICE_NAME a w).2)
              = stored_pair other_service b (keyring w))
    by (unfold stored_pair; now rewrite !delete_basic_auth_frame_service by apply K).
  repeat apply conj; try assumption.
  - rewrite !get_basic_auth_result. now rewrite set_basic_auth_environ, S.
  - rewrite !get_basic_auth_result. now rewrite delete_basic_auth_environ, D.
Qed.

(** X8. Once [delete_basic_auth] has returned, neither key of the account
    reads anything, and resolving the account without override or bootstrap
    raises [MissingSecretError]. *)
Theorem delete_leaves_nothing_to_resolve account w :
  env_pair (environ w) = None →
  (delete_basic_auth SERVICE_NAME account w).1 = Ok tt →
  let w' := (delete_basic_auth SERVICE_NAME account w).2 in
  get_password SERVICE_NAME (_key_names account).1 (keyring w') = Ok None
  ∧ get_password SERVICE_NAME (_key_names account).2 (keyring w') = Ok None
  ∧ (get_basic_auth SERVICE_NAME account false w').1
    = Raise (MissingSecretError (missing_message SERVICE_NAME account)).
Proof.
  intros He Hok. cbv zeta.
  assert (Hu : (_key_names account).1 ≠ (_key_names account).2)
    by apply user_key_ne_pass_key.
  assert (Hgone :
    get_password SERVICE_NAME (_key_names account).1
      (keyring (delete_basic_auth SERVICE_NAME account w).2) = Ok None
    ∧ get_password SERVICE_NAME (_key_names account).2
        (keyring (delete_basic_auth SERVICE_NAME account w).2) = Ok None).
  { revert Hok. rewrite delete_basic_auth_run. cbv zeta.
    pose proof (get_delete_eq SERVICE_NAME (_key_names account).1 (keyring w)) as G1.
    destruct (delete_password SERVICE_NAME (_key_names account).1 (keyring w))
      as [o1 b1]; cbn [fst snd] in *.
    pose proof (get_delete_ne SERVICE_NAME (_key_names account).2
                  SERVICE_NAME (_key_names account).1 b1
                  (service_key_ne _ _ _ Hu)) as G2.
    pose proof (get_delete_eq SERVICE_NAME (_key_names account).2 b1) as G3.
    destruct (delete_password SERVICE_NAME (_key_names account).2 b1)
      as [o2 b2]; cbn [fst snd] in *.
    assert (H1 : (∀ e, o1 = Raise e → is_PasswordDeleteError e = true) →
                 (match o2 with
                  | Ok _ => Ok tt
                  | Raise e => if is_PasswordDeleteError e then Ok tt else Raise e
                  end = Ok tt) →
                 get_password SERVICE_NAME (_key_names account).1 b2 = Ok None
                 ∧ get_password SERVICE_NAME (_key_names account).2 b2 = Ok None).
    { intros N1 Hok2. split.
      - rewrite G2. now apply G1.
      - apply G3. intros e E. subst o2.
        destruct (is_PasswordDeleteError e); [reflexivity | discriminate]. }
    destruct o1 as [[]|e1]; [| destruct (is_PasswordDeleteError e1) eqn:P1];
      cbn [fst snd keyring]; intros Hok; try discriminate; apply H1; try exact Hok.
    - intros e E. discriminate.
    - intros e E. injection E as <-. exact P1. }
  destruct Hgone as [G1 G2]. repeat apply conj; try assumption.
  rewrite get_basic_auth_result, delete_basic_auth_environ, He.
  unfold stored_pair. now rewrite G1, G2.
Qed.

(** X9. A failure on the user key other than "not found" stops
    [delete_basic_auth] there: the exception comes through, the delete of
    the password key is not attempted, and the password key reads what it
    read before. *)
Theorem delete_aborts_on_first_failure account w (e : exn) :
  store_failure
    (delete_password SERVICE_NAME (_key_names account).1 (keyring w)).1 e →
  let r := delete_basic_auth SERVICE_NAME account w in
  r.1 = Raise e
  ∧ trace r.2 = trace w ++ [EvDelete SERVICE_NAME (_key_names account).1]
  ∧ get_password SERVICE_NAME (_key_names account).2 (keyring r.2)
    = get_password SERVICE_NAME (_key_names account).2 (keyring w).
Proof.
  intros [E P]. cbv zeta. rewrite delete_basic_auth_run. cbv zeta.
  assert (Hp : (SERVICE_NAME, (_key_names account).2)
               ≠ (SERVICE_NAME, (_key_names account).1))
    by apply not_eq_sym, service_key_ne, user_key_ne_pass_key.
  pose proof (get_delete_ne SERVICE_NAME (_key_names account).1
                SERVICE_NAME (_key_names account).2 (keyring w) Hp) as G.
  destruct (delete_password SERVICE_NAME (_key_names account).1 (keyring w))
    as [o1 b1]; cbn [fst snd] in *.
  subst o1. rewrite P. cbn [fst snd keyring trace].
  repeat apply conj; [reflexivity | reflexivity | exact G].
Qed.

(** X10. [set_basic_auth] is not atomic: when the write of the username
    succeeds and the write of the password fails, the failure comes through
    and the username stays written. *)
Theorem failed_second_write_keeps_username account (u p : string) w (e : exn) :
  u ≠ "" → p ≠ "" →
  let s1 := set_password SERVICE_NAME (_key_names account).1 u (keyring w) in
  let s2 := set_password SERVICE_NAME (_key_names account).2 p s1.2 in
  s1.1 = Ok tt → s2.1 = Raise e →
  let r := set_basic_auth SERVICE_NAME account (Some u) (Some p) w in
  r.1 = Raise e
  ∧ get_password SERVICE_NAME (_key_names account).1 (keyring r.2) = Ok (Some u)
  ∧ trace r.2 = trace w ++ [EvSet SERVICE_NAME (_key_names account).1 u;
                            EvSet SERVICE_NAME (_key_names account).2 p].
Proof.
  intros Hu Hp. cbv zeta. intros H1 H2.
  rewrite set_basic_auth_given by assumption. rewrite persist_run. cbv zeta.
  assert (Hk : (SERVICE_NAME, (_key_names account).1)
               ≠ (SERVICE_NAME, (_key_names account).2))
    by apply service_key_ne, user_key_ne_pass_key.
  pose proof (get_set_eq SERVICE_NAME (_key_names account).1 u (keyring w) H1) as G1.
  destruct (set_password SERVICE_NAME (_key_names account).1 u (keyring w))
    as [o1 b1]; cbn [fst snd] in *. subst o1.
  pose proof (get_set_ne SERVICE_NAME (_key_names account).2 p
                SERVICE_NAME (_key_names account).1 b1 Hk) as G2.
  destruct (set_password SERVICE_NAME (_key_names account).2 p b1)
    as [o2 b2]; cbn [fst snd keyring trace] in *. subst o2.
  repeat apply conj; [reflexivity | now rewrite G2 | reflexivity].
Qed.

(** What the bootstrap step comes to when two lines are typed and both
    writes go through. *)
Lemma bootstrap_run_typed account w (l1 l2 : string) (rest : list string) :
  env_pair (environ w) = None →
  stored_pair SERVICE_NAME account (keyring w) = Ok None →
  stdin w = l1 :: l2 :: rest →
  let s1 := set_password SERVICE_NAME (_key_names account).1 (Py.strip l1) (keyring w) in
  let s2 := set_password SERVICE_NAME (_key_names account).2 l2 s1.2 in
  s1.1 = Ok tt → s2.1 = Ok tt →
  let r := get_basic_auth SERVICE_NAME account true w in
  r.1 = match truthy_pair (Some (Py.strip l1)) (Some l2) with
        | Some c => Ok c
        | None => Raise (MissingSecretError (missing_message SERVICE_NAME account))
        end
  ∧ keyring r.2 = s2.2
  ∧ environ r.2 = environ w
  ∧ stdin r.2 = rest
  ∧ get_password SERVICE_NAME (_key_names account).1 s2.2 = Ok (Some (Py.strip l1))
  ∧ get_password SERVICE_NAME (_key_names account).2 s2.2 = Ok (Some l2).
Proof.
  intros He Hs Hin. cbv zeta. intros H1 H2.
  rewrite get_basic_auth_bootstrap by assumption. cbv zeta.
  rewrite (set_basic_auth_prompted _ _ _ l1 l2 rest) by exact Hin.
  cbn [environ keyring stdin trace].
  match goal with |- context [persist ?s ?a ?u ?p ?w1] =>
    pose proof (persist_stored s a u p w1) as St;
    pose proof (persist_run s a u p w1) as Run
  end.
  cbv zeta in St, Run. cbn [keyring environ stdin trace] in Run.
  rewrite H1 in Run. rewrite Run in St |- *. cbn [fst snd keyring] in St.
  specialize (St H2). destruct St as [G1 G2].
  rewrite H2. cbn [fst snd keyring environ stdin trace].
  unfold stored_pair. rewrite G1, G2.
  repeat apply conj; first [reflexivity | assumption].
Qed.

(** X11. Bootstrap returns what was typed: with no credentials anywhere,
    two lines typed and both writes going through, [get_basic_auth] with
    bootstrap returns the first line stripped of surrounding whitespace and
    the second line as it is, provided neither is empty; a later call
    without bootstrap returns the same pair. *)
Theorem bootstrap_returns_typed_pair account w (l1 l2 : string) (rest : list string) :
  env_pair (environ w) = None →
  stored_pair SERVICE_NAME account (keyring w) = Ok None →
  stdin w = l1 :: l2 :: rest →
  Py.strip l1 ≠ "" → l2 ≠ "" →
  let s1 := set_password SERVICE_NAME (_key_names account).1 (Py.strip l1) (keyring w) in
  let s2 := set_password SERVICE_NAME (_key_names account).2 l2 s1.2 in
  s1.1 = Ok tt → s2.1 = Ok tt →
  let r := get_basic_auth SERVICE_NAME account true w in
  r.1 = Ok (Py.strip l1, l2)
  ∧ stdin r.2 = rest
  ∧ (get_basic_auth SERVICE_NAME account false r.2).1 = Ok (Py.strip l1, l2).
Proof.
  intros He Hs Hin Hu Hp. cbv zeta. intros H1 H2.
  destruct (bootstrap_run_typed account w l1 l2 rest He Hs Hin H1 H2)
    as (R & K & E & I & G1 & G2).
  rewrite truthy_pair_Some in R by assumption.
  repeat apply conj; try assumption.
  rewrite get_basic_auth_result, E, He. unfold stored_pair. rewrite K, G1, G2.
  now rewrite truthy_pair_Some.
Qed.

(** X12. A blank answer is stored and then refused: when the username line
    is empty or all whitespace, or the password line is empty, bootstrap
    still writes both keys (the username stripped, the password as typed)
    and then raises [MissingSecretError]. *)
Theorem bootstrap_blank_answer_is_stored_and_refused
    account w (l1 l2 : string) (rest : list string) :
  env_pair (environ w) = None →
  stored_pair SERVICE_NAME account (keyring w) = Ok None →
  stdin w = l1 :: l2 :: rest →
  Py.strip l1 = "" ∨ l2 = "" →
  let s1 := set_password SERVICE_NAME (_key_names account).1 (Py.strip l1) (keyring w) in
  let s2 := set_password SERVICE_NAME (_key_names account).2 l2 s1.2 in
  s1.1 = Ok tt → s2.1 = Ok tt →
  let r := get_basic_auth SERVICE_NAME account true w in
  r.1 = Raise (MissingSecretError (missing_message SERVICE_NAME account))
  ∧ get_password SERVICE_NAME (_key_names account).1 (keyring r.2) = Ok (Some (Py.strip l1))
  ∧ get_password SERVICE_NAME (_key_names account).2 (keyring r.2) = Ok (Some l2).
Proof.
  intros He Hs Hin Hblank. cbv zeta. intros H1 H2.
  destruct (bootstrap_run_typed account w l1 l2 rest He Hs Hin H1 H2)
    as (R & K & E & I & G1 & G2).
  rewrite K. repeat apply conj; try assumption.
  rewrite R. destruct Hblank as [-> | ->].
  - now rewrite truthy_pair_falsy_l.
  - now rewrite truthy_pair_falsy_r.
Qed.

End LawfulMore.

(** ** These statements at sample worlds *)

Lemma bootstrap_flag_unused_when_available_witness :
  let w := fresh_world ∅ alice_keyring ["mallory"; "guess"] in
  (env_pair (environ w) ≠ None ∨ stored_pair "pi-weblogger" "prod" (keyring w) ≠ Ok None)
  ∧ get_basic_auth "pi-weblogger" "prod" true w
    = get_basic_auth "pi-weblogger" "prod" false w.
Proof.
  cbv zeta.
  assert (Hav : env_pair (environ (fresh_world ∅ alice_keyring ["mallory"; "guess"])) ≠ None
                ∨ stored_pair "pi-weblogger" "prod"
                    (keyring (fresh_world ∅ alice_keyring ["mallory"; "guess"])) ≠ Ok None)
    by (right; vm_compute; discriminate).
  split; [exact Hav |].
  exact (bootstrap_flag_unused_when_available "pi-weblogger" "prod" _ Hav).
Defined.

Lemma resolved_pair_is_non_empty_witness :
  let w := fresh_world ∅ alice_keyring [] in
  (get_basic_auth "pi-weblogger" "prod" false w).1 = Ok ("alice", "s3cr3t")
  ∧ "alice" ≠ "" ∧ "s3cr3t" ≠ "".
Proof.
  cbv zeta.
  assert (Hr : (get_basic_auth "pi-weblogger" "prod" false
                  (fresh_world ∅ alice_keyring [])).1 = Ok ("alice", "s3cr3t"))
    by reflexivity.
  split; [exact Hr |].
  exact (resolved_pair_is_non_empty "pi-weblogger" "prod" false _ _ Hr).
Defined.

Lemma closed_terminal_writes_nothing_witness :
  let w := fresh_world ∅ empty_keyring ["carol"] in
  let r := set_basic_auth "pi-weblogger" "prod" None None w in
  List.length (stdin w) < prompts_needed None None
  ∧ r.1 = Raise EOFError
  ∧ keyring r.2 = keyring w.
Proof.
  cbv zeta.
  assert (Hlen : List.length (stdin (fresh_world ∅ empty_keyring ["carol"]))
                 < prompts_needed None None) by (cbn; lia).
  destruct (closed_terminal_writes_nothing "pi-weblogger" "prod" None None _ Hlen)
    as (R & K & _).
  repeat apply conj; assumption.
Defined.

Lemma bootstrap_on_closed_terminal_witness :
  let w := fresh_world ∅ empty_keyring ["alice"] in
  let r := get_basic_auth "pi-weblogger" "prod" true w in
  (env_pair (environ w) = None
   ∧ stored_pair "pi-weblogger" "prod" (keyring w) = Ok None
   ∧ List.length (stdin w) < 2)
  ∧ r.1 = Raise EOFError
  ∧ keyring r.2 = keyring w.
Proof.
  cbv zeta.
  assert (Hlen : List.length (stdin (fresh_world ∅ empty_keyring ["alice"])) < 2)
    by (cbn; lia).
  split; [repeat apply conj; first [reflexivity | exact Hlen] |].
  exact (bootstrap_on_closed_terminal "pi-weblogger" "prod"
           (fresh_world ∅ empty_keyring ["alice"]) eq_refl eq_refl Hlen).
Defined.

Lemma other_service_untouched_witness :
  let w := fresh_world ∅ two_service_keyring [] in
  let ws := (set_basic_auth "pi-weblogger" "prod" (Some "bob") (Some "hunter2") w).2 in
  let wd := (delete_basic_auth "pi-weblogger" "prod" w).2 in
  "staging" ≠ "pi-weblogger"
  ∧ (get_basic_auth "staging" "prod" false ws).1
    = (get_basic_auth "staging" "prod" false w).1
  ∧ (get_basic_auth "staging" "prod" false wd).1
    = (get_basic_auth "staging" "prod" false w).1.
Proof.
  cbv zeta.
  assert (Hne : "staging" ≠ "pi-weblogger") by discriminate.
  destruct (other_service_untouched "pi-weblogger" "staging" "prod" "prod"
              (Some "bob") (Some "hunter2") (fresh_world ∅ two_service_keyring []) Hne)
    as [(_ & S) (_ & D)].
  repeat apply conj; assumption.
Defined.

Lemma delete_leaves_nothing_to_resolve_witness :
  let w := fresh_world ∅ alice_keyring [] in
  let w' := (delete_basic_auth "pi-weblogger" "prod" w).2 in
  (env_pair (environ w) = None
   ∧ (delete_basic_auth "pi-weblogger" "prod" w).1 = Ok tt)
  ∧ get_password "pi-weblogger" "prod:username" (keyring w') = Ok None
  ∧ get_password "pi-weblogger" "prod:password" (keyring w') = Ok None
  ∧ (get_basic_auth "pi-weblogger" "prod" false w').1
    = Raise (MissingSecretError (missing_message "pi-weblogger" "prod")).
Proof.
  cbv zeta. split; [split; reflexivity |].
  exact (delete_leaves_nothing_to_resolve "pi-weblogger" "prod"
           (fresh_world ∅ alice_keyring []) eq_refl eq_refl).
Defined.

Lemma delete_aborts_on_first_failure_witness :
  let w := fresh_world ∅ locked_keyring [] in
  let r := delete_basic_auth "pi-weblogger" "prod" w in
  store_failure (delete_password "pi-weblogger" "prod:username" (keyring w)).1
    (StoreFailure "keyring is locked")
  ∧ r.1 = Raise (StoreFailure "keyring is locked")
  ∧ trace r.2 = trace w ++ [EvDelete "pi-weblogger" "prod:username"]
  ∧ get_password "pi-weblogger" "prod:password" (keyring r.2) = Ok (Some "s3cr3t").
Proof.
  cbv zeta.
  assert (Hf : store_failure
                 (delete_password "pi-weblogger" (_key_names "prod").1
                    (keyring (fresh_world ∅ locked_keyring []))).1
                 (StoreFailure "keyring is locked"))
    by (split; reflexivity).
  split; [exact Hf |].
  destruct (delete_aborts_on_first_failure "pi-weblogger" "prod"
              (fresh_world ∅ locked_keyring []) _ Hf) as (R & T & G).
  repeat apply conj; [exact R | exact T |].
  etransitivity; [exact G | reflexivity].
Defined.

Lemma failed_second_write_keeps_username_witness :
  let w := fresh_world ∅ tight_keyring [] in
  let r := set_basic_auth "pi-weblogger" "prod" (Some "bob") (Some "hunter2") w in
  ("bob" ≠ "" ∧ "hunter2" ≠ "")
  ∧ r.1 = Raise (StoreFailure "keyring is full")
  ∧ get_password "pi-weblogger" "prod:username" (keyring r.2) = Ok (Some "bob")
  ∧ get_password "pi-weblogger" "prod:password" (keyring r.2) = Ok None.
Proof.
  cbv zeta.
  assert (Hu : "bob" ≠ "") by discriminate.
  assert (Hp : "hunter2" ≠ "") by discriminate.
  split; [split; assumption |].
  assert (H1 : (set_password "pi-weblogger" (_key_names "prod").1 "bob"
                  (keyring (fresh_world ∅ tight_keyring []))).1 = Ok tt)
    by (vm_compute; reflexivity).
  assert (H2 : (set_password "pi-weblogger" (_key_names "prod").2 "hunter2"
                  (set_password "pi-weblogger" (_key_names "prod").1 "bob"
                     (keyring (fresh_world ∅ tight_keyring []))).2).1
               = Raise (StoreFailure "keyring is full"))
    by (vm_compute; reflexivity).
  destruct (failed_second_write_keeps_username "pi-weblogger" "prod" "bob" "hunter2"
              (fresh_world ∅ tight_keyring []) (StoreFailure "keyring is full")
              Hu Hp H1 H2) as (R & G & _).
  repeat apply conj; [exact R | exact G | reflexivity].
Defined.

Lemma bootstrap_returns_typed_pair_witness :
  let w := fresh_world ∅ empty_keyring ["  carol "; " pw "] in
  let r := get_basic_auth "pi-weblogger" "prod" true w in
  (Py.strip "  carol " ≠ "" ∧ " pw " ≠ "")
  ∧ r.1 = Ok ("carol", " pw ")
  ∧ stdin r.2 = []
  ∧ (get_basic_auth "pi-weblogger" "prod" false r.2).1 = Ok ("carol", " pw ").
Proof.
  cbv zeta.
  assert (Hu : Py.strip "  carol " ≠ "") by (vm_compute; discriminate).
  assert (Hp : " pw " ≠ "") by discriminate.
  split; [split; assumption |].
  exact (bootstrap_returns_typed_pair "pi-weblogger" "prod"
           (fresh_world ∅ empty_keyring ["  carol "; " pw "]) "  carol " " pw " []
           eq_refl eq_refl eq_refl Hu Hp eq_refl eq_refl).
Defined.

Lemma bootstrap_blank_answer_is_stored_and_refused_witness :
  let w := fresh_world ∅ empty_keyring ["   "; "pw"] in
  let r := get_basic_auth "pi-weblogger" "prod" true w in
  (Py.strip "   " = "" ∨ "pw" = "")
  ∧ r.1 = Raise (MissingSecretError (missing_message "pi-weblogger" "prod"))
  ∧ get_password "pi-weblogger" "prod:username" (keyring r.2) = Ok (Some "")
  ∧ get_password "pi-weblogger" "prod:password" (keyring r.2) = Ok (Some "pw").
Proof.
  cbv zeta.
  assert (Hb : Py.strip "   " = "" ∨ "pw" = "") by (left; reflexivity).
  split; [exact Hb |].
  exact (bootstrap_blank_answer_is_stored_and_refused "pi-weblogger" "prod"
           (fresh_world ∅ empty_keyring ["   "; "pw"]) "   " "pw" []
           eq_refl eq_refl eq_refl Hb eq_refl eq_refl).
Defined.

Lemma only_override_variables_matter_witness :
  let e := <["KEYRING_SERVICE" := "staging"]> (<["KEYRING_ACCOUNT" := "test"]> ∅) in
  let w := fresh_world ∅ alice_keyring [] in
  let r' := get_basic_auth "pi-weblogger" "prod" false (set_environ ∅ w) in
  (e !! ENV_USER = (∅ : gmap string string) !! ENV_USER
   ∧ e !! ENV_PASS = (∅ : gmap string string) !! ENV_PASS)
  ∧ get_basic_auth "pi-weblogger" "prod" false (set_environ e w)
    = (r'.1, set_environ e r'.2).
Proof.
  cbv zeta. split; [split; reflexivity |].
  exact (only_override_variables_matter "pi-weblogger" "prod" false
           (fresh_world ∅ alice_keyring [])
           (<["KEYRING_SERVICE" := "staging"]> (<["KEYRING_ACCOUNT" := "test"]> ∅)) ∅
           eq_refl eq_refl).
Defined.

(** ** Sample runs of the wrappers *)

(** Without the [requests] library the session is refused before the
    keyring is looked at. *)
Example requests_session_without_requests :
  requests_session "pi-weblogger" false "prod" (fresh_world ∅ alice_keyring [])
  = (Raise (ModuleNotFoundError "No module named 'requests'"),
     fresh_world ∅ alice_keyring []).
Proof. reflexivity. Qed.

(** With it, the session carries the stored pair. *)
Example requests_session_from_keyring :
  (requests_session "pi-weblogger" true "prod" (fresh_world ∅ alice_keyring [])).1
  = Ok (mkSession (Some ("alice", "s3cr3t"))).
Proof. vm_compute. reflexivity. Qed.

(** With no keyring backend the read's exception comes through. *)
Example requests_session_without_backend :
  (requests_session "pi-weblogger" true "prod" (fresh_world ∅ no_keyring [])).1
  = Raise no_backend.
Proof. reflexivity. Qed.
